(** * Finance tracker backend: month filter, listing, summary and write checks

    A shallow embedding of [src/main.py].  The request handlers are pure
    functions of the store contents; an exception raised by the Python code is
    an [outcome] other than [Return].

    Numbers: a Python [float] is a binary64 number, embedded as a primitive
    [float]; [+] and [-] on amounts are the IEEE 754 operations, each rounded
    to nearest, ties to even.

    Text: a Python [str] is embedded as the [string] of its UTF-8 bytes.
    Equal texts have equal bytes, and texts compare by code point as their
    byte strings compare. *)

From Stdlib Require Import ZArith Lia List Bool Ascii String Floats.
From Stdlib Require Uint63.
From Stdlib Require Import Permutation Sorted.
Import ListNotations.

Local Open Scope string_scope.
Local Open Scope list_scope.
Local Open Scope Z_scope.

(** ** Outcomes of a handler *)

Inductive exn : Type :=
| ValueError   (* datetime.strptime, datetime.date, datetime.fromisoformat *)
| InvalidId.   (* bson.errors.InvalidId, raised by ObjectId(...) *)

Inductive outcome (A : Type) : Type :=
| Return (a : A)
| HTTPException (status_code : Z) (detail : string)
| Unhandled (e : exn).

Arguments Return {A} a.
Arguments HTTPException {A} status_code detail.
Arguments Unhandled {A} e.

Definition bind {A B} (m : outcome A) (k : A -> outcome B) : outcome B :=
  match m with
  | Return a => k a
  | HTTPException c d => HTTPException c d
  | Unhandled e => Unhandled e
  end.

Notation "x <- m ;; k" := (bind m (fun x => k))
  (at level 61, m at next level, right associativity).

Definition of_option {A} (e : exn) (o : option A) : outcome A :=
  match o with Some a => Return a | None => Unhandled e end.

(** ** Calendar dates (Python's [datetime.date]) *)

Module Calendar.

Record date : Type := Date { year : Z; month : Z; day : Z }.

Definition is_leap (y : Z) : bool :=
  (y mod 4 =? 0) && (negb (y mod 100 =? 0) || (y mod 400 =? 0)).

Definition days_in_month (y m : Z) : Z :=
  match m with
  | 1 => 31 | 2 => if is_leap y then 29 else 28 | 3 => 31 | 4 => 30
  | 5 => 31 | 6 => 30 | 7 => 31 | 8 => 31
  | 9 => 30 | 10 => 31 | 11 => 30 | 12 => 31
  | _ => 0
  end.

Definition MINYEAR : Z := 1.
Definition MAXYEAR : Z := 9999.

Definition valid_ymd (y m d : Z) : bool :=
  (MINYEAR <=? y) && (y <=? MAXYEAR) && (1 <=? m) && (m <=? 12)
  && (1 <=? d) && (d <=? days_in_month y m).

Definition valid_date (x : date) : bool := valid_ymd (year x) (month x) (day x).

(** The constructor [date(y, m, d)]; [None] is [ValueError]. *)
Definition mk_date (y m d : Z) : option date :=
  if valid_ymd y m d then Some (Date y m d) else None.

(** Dates compare as the triple (year, month, day). *)
Definition date_compare (a b : date) : comparison :=
  match year a ?= year b with
  | Eq => match month a ?= month b with
          | Eq => day a ?= day b
          | c => c
          end
  | c => c
  end.

Definition date_leb (a b : date) : bool :=
  match date_compare a b with Gt => false | _ => true end.
Definition date_ltb (a b : date) : bool :=
  match date_compare a b with Lt => true | _ => false end.

(** [date.toordinal()]: day number, 0001-01-01 being day 1. *)
Definition days_before_year (y : Z) : Z :=
  let p := y - 1 in p * 365 + p / 4 - p / 100 + p / 400.

Definition days_before_month (y m : Z) : Z :=
  let leap := if is_leap y then 1 else 0 in
  match m with
  | 1 => 0 | 2 => 31 | 3 => 59 + leap | 4 => 90 + leap
  | 5 => 120 + leap | 6 => 151 + leap | 7 => 181 + leap | 8 => 212 + leap
  | 9 => 243 + leap | 10 => 273 + leap | 11 => 304 + leap | 12 => 334 + leap
  | _ => 0
  end.

Definition toordinal (x : date) : Z :=
  days_before_year (year x) + days_before_month (year x) (month x) + day x.

(** [(a - b).days] *)
Definition date_sub (a b : date) : Z := toordinal a - toordinal b.

End Calendar.
Export Calendar.

(** ** Characters of a text *)

Module Unicode.

Definition byte (c : ascii) : Z := Z.of_N (N_of_ascii c).

(** A byte [10xxxxxx], which continues a character. *)
Definition continuation (c : ascii) : bool := (128 <=? byte c) && (byte c <? 192).

(** A code point that UTF-8 writes on the number of bytes read: it is at
    least [lo], at most U+10FFFF, and no surrogate. *)
Definition scalar (lo c : Z) (r : string) : option (Z * string) :=
  if (lo <=? c) && (c <=? 1114111) && negb ((55296 <=? c) && (c <=? 57343))
  then Some (c, r) else None.

(** The first character of a text, as its code point, and the text after it:
    UTF-8 writes a code point on 1 to 4 bytes.  Bytes that are not the UTF-8
    form of a character have no first character. *)
Definition decode (s : string) : option (Z * string) :=
  match s with
  | "" => None
  | String b0 r0 =>
      if byte b0 <? 128 then Some (byte b0, r0)
      else if byte b0 <? 192 then None
      else if byte b0 <? 224 then
        match r0 with
        | String b1 r1 =>
            if continuation b1
            then scalar 128 (64 * (byte b0 - 192) + (byte b1 - 128)) r1
            else None
        | _ => None
        end
      else if byte b0 <? 240 then
        match r0 with
        | String b1 (String b2 r2) =>
            if continuation b1 && continuation b2
            then scalar 2048
                   (4096 * (byte b0 - 224) + 64 * (byte b1 - 128) + (byte b2 - 128)) r2
            else None
        | _ => None
        end
      else
        match r0 with
        | String b1 (String b2 (String b3 r3)) =>
            if continuation b1 && continuation b2 && continuation b3
            then scalar 65536
                   (262144 * (byte b0 - 240) + 4096 * (byte b1 - 128)
                    + 64 * (byte b2 - 128) + (byte b3 - 128)) r3
            else None
        | _ => None
        end
  end.

(** The UTF-8 bytes of a code point. *)
Definition encode (c : Z) : string :=
  let b (n : Z) := ascii_of_N (Z.to_N n) in
  if c <? 128 then String (b c) ""
  else if c <? 2048 then String (b (192 + c / 64)) (String (b (128 + c mod 64)) "")
  else if c <? 65536 then
    String (b (224 + c / 4096))
      (String (b (128 + (c / 64) mod 64)) (String (b (128 + c mod 64)) ""))
  else
    String (b (240 + c / 262144))
      (String (b (128 + (c / 4096) mod 64))
         (String (b (128 + (c / 64) mod 64)) (String (b (128 + c mod 64)) ""))).

Definition text (l : list Z) : string := fold_right (fun c s => append (encode c) s) "" l.

(** The decimal digits of Unicode 14.0 (category Nd, the characters [\d]
    matches and [int] reads): they come in runs of ten, 0 to 9 in order; this
    is the code point of the 0 of each run. *)
Definition decimal_zeros : list Z :=
  [48; 1632; 1776; 1984; 2406; 2534; 2662; 2790; 2918; 3046;
   3174; 3302; 3430; 3558; 3664; 3792; 3872; 4160; 4240; 6112;
   6160; 6470; 6608; 6784; 6800; 6992; 7088; 7232; 7248; 42528;
   43216; 43264; 43472; 43504; 43600; 44016; 65296; 66720; 68912; 69734;
   69872; 69942; 70096; 70384; 70736; 70864; 71248; 71360; 71472; 71904;
   72016; 72784; 73040; 73120; 92768; 92864; 93008; 120782; 120792; 120802;
   120812; 120822; 123200; 123632; 125264; 130032].

(** [unicodedata.decimal]: the value of a decimal digit. *)
Definition decimal (c : Z) : option Z :=
  match find (fun z => (z <=? c) && (c <=? z + 9)) decimal_zeros with
  | Some z => Some (c - z)
  | None => None
  end.

(** One decimal digit at the head of a text: its value and the rest. *)
Definition read_decimal (s : string) : option (Z * string) :=
  match decode s with
  | Some (c, r) => match decimal c with Some v => Some (v, r) | None => None end
  | None => None
  end.

(** [n] decimal digits at the head of a text, read as [int] reads them. *)
Fixpoint read_decimals (n : nat) (acc : Z) (s : string) : option (Z * string) :=
  match n with
  | O => Some (acc, s)
  | S k =>
      match read_decimal s with
      | Some (v, r) => read_decimals k (10 * acc + v) r
      | None => None
      end
  end.

End Unicode.
Export Unicode.

(** ** Text forms of dates: [isoformat], [fromisoformat], [strptime] *)

Module IsoText.

Definition is_digit (c : ascii) : bool :=
  let n := Z.of_N (N_of_ascii c) in (48 <=? n) && (n <=? 57).

Definition digit_val (c : ascii) : Z := Z.of_N (N_of_ascii c) - 48.

Definition digit_char (n : Z) : ascii := ascii_of_N (Z.to_N (48 + n)).

Definition in_range (lo hi : Z) (c : ascii) : bool :=
  is_digit c && (lo <=? digit_val c) && (digit_val c <=? hi).

(** ["%0<w>d" % n] for [0 <= n < 10^w]: most significant digit first. *)
Fixpoint zpad (w : nat) (n : Z) : string :=
  match w with
  | O => ""
  | S k => String (digit_char (n / 10 ^ Z.of_nat k)) (zpad k (n mod 10 ^ Z.of_nat k))
  end.

(** [int(s)] for a run of ASCII digits, with an accumulator. *)
Fixpoint digits_val (acc : Z) (s : string) : option Z :=
  match s with
  | "" => Some acc
  | String c r => if is_digit c then digits_val (10 * acc + digit_val c) r else None
  end.

(** [date.isoformat()]: ["%04d-%02d-%02d"]. *)
Definition date_isoformat (x : date) : string :=
  (zpad 4 (year x) ++ "-" ++ zpad 2 (month x) ++ "-" ++ zpad 2 (day x))%string.

(** [datetime.fromisoformat(s).date()] on the text of a date.  The handlers
    call it on what [date_isoformat] wrote for a stored date, the form
    [YYYY-MM-DD] in ASCII digits, and this is the form read here; [None] is
    [ValueError].  The other forms that [fromisoformat] reads (a time after
    the date, a week date) are never written by [serialize] and are left
    out. *)
Definition date_fromisoformat (s : string) : option date :=
  match s with
  | String y1 (String y2 (String y3 (String y4 (String "-"
      (String m1 (String m2 (String "-" (String d1 (String d2 ""))))))))) =>
      match digits_val 0 (String y1 (String y2 (String y3 (String y4 "")))),
            digits_val 0 (String m1 (String m2 "")),
            digits_val 0 (String d1 (String d2 "")) with
      | Some y, Some m, Some d => mk_date y m d
      | _, _, _ => None
      end
  | _ => None
  end.

(** [datetime.strptime(s, "%Y-%m-%d")].  The format is compiled to the regular
    expression [(\d\d\d\d)-(1[0-2]|0[1-9]|[1-9])-(3[01]|[12]\d|0[1-9]|[1-9]| [1-9])];
    alternatives are tried in order, the first overall match wins.  Each
    matcher lists the matches of its group at the head of [s], in the order
    the regex engine tries them, with the rest of the text; the number of a
    group is what [int] reads from it.  [\d] is any decimal digit, the
    classes [[0-9]] hold the ASCII digits only. *)
Definition match_year (s : string) : list (Z * string) :=
  match read_decimals 4 0 s with
  | Some (y, r) => [(y, r)]
  | None => []
  end.

Definition match_month (s : string) : list (Z * string) :=
  (match s with
   | String "1" (String c r) => if in_range 0 2 c then [(10 + digit_val c, r)] else []
   | _ => []
   end) ++
  (match s with
   | String "0" (String c r) => if in_range 1 9 c then [(digit_val c, r)] else []
   | _ => []
   end) ++
  (match s with
   | String c r => if in_range 1 9 c then [(digit_val c, r)] else []
   | _ => []
   end).

Definition match_day (s : string) : list (Z * string) :=
  (match s with
   | String "3" (String c r) => if in_range 0 1 c then [(30 + digit_val c, r)] else []
   | _ => []
   end) ++
  (match s with
   | String t r0 =>
       if in_range 1 2 t
       then match read_decimal r0 with
            | Some (v, r) => [(10 * digit_val t + v, r)]
            | None => []
            end
       else []
   | _ => []
   end) ++
  (match s with
   | String "0" (String c r) => if in_range 1 9 c then [(digit_val c, r)] else []
   | _ => []
   end) ++
  (match s with
   | String c r => if in_range 1 9 c then [(digit_val c, r)] else []
   | _ => []
   end) ++
  (match s with
   | String " " (String c r) => if in_range 1 9 c then [(digit_val c, r)] else []
   | _ => []
   end).

Definition match_lit (c : ascii) (s : string) : list string :=
  match s with
  | String c' r => if Ascii.eqb c c' then [r] else []
  | _ => []
  end.

(** The matches of [month-day] at the head of [s], in priority order. *)
Definition match_month_day (s : string) : list (Z * Z * string) :=
  flat_map (fun '(m, r1) =>
    flat_map (fun r2 => map (fun '(d, r3) => (m, d, r3)) (match_day r2))
             (match_lit "-" r1))
    (match_month s).

(** The matches of the whole expression at the head of [s], in priority
    order: (year, month, day, unconverted rest). *)
Definition match_ymd (s : string) : list (Z * Z * Z * string) :=
  flat_map (fun '(y, r1) =>
    flat_map (fun r2 => map (fun '(m, d, r3) => (y, m, d, r3)) (match_month_day r2))
             (match_lit "-" r1))
    (match_year s).

(** [strptime] takes the first match; text left over after it, no match at
    all, and a (year, month, day) that is no date are all [ValueError]. *)
Definition strptime_ymd (s : string) : option date :=
  match match_ymd s with
  | (y, m, d, "") :: _ => mk_date y m d
  | _ => None
  end.

(** The query pattern [^\d{4}-\d{2}$] of the endpoints: four decimal digits,
    a hyphen and two decimal digits.  Under Python's [re], [$] also matches
    before a line feed that ends the text; an engine whose [$] is the end of
    the text alone accepts the same tokens without those. *)
Definition query_pattern (s : string) : bool :=
  match read_decimals 4 0 s with
  | Some (_, String "-" r) =>
      match read_decimals 2 0 r with
      | Some (_, "") => true
      | Some (_, String c "") => Ascii.eqb c "010"
      | _ => false
      end
  | _ => false
  end.

(** The tokens [YYYY-MM] written in ASCII digits, which the query pattern
    accepts. *)
Definition month_pattern (s : string) : bool :=
  match s with
  | String a (String b (String c (String d (String "-" (String e (String f "")))))) =>
      is_digit a && is_digit b && is_digit c && is_digit d && is_digit e && is_digit f
  | _ => false
  end.

(** The numbers a token that matches the pattern denotes. *)
Definition token_year (s : string) : Z :=
  match digits_val 0 (substring 0 4 s) with Some y => y | None => 0 end.

Definition token_month (s : string) : Z :=
  match digits_val 0 (substring 5 2 s) with Some m => m | None => 0 end.

(** The year of a token of the query pattern: the number that its four
    decimal digits denote. *)
Definition pattern_year (s : string) : Z :=
  match read_decimals 4 0 s with Some (y, _) => y | None => 0 end.

(** The month of a token of the query pattern whose part after the hyphen is
    two ASCII digits and nothing more; no other token has one. *)
Definition pattern_month (s : string) : option Z :=
  match read_decimals 4 0 s with
  | Some (_, String _ r) => if (String.length r =? 2)%nat then digits_val 0 r else None
  | _ => None
  end.

End IsoText.
Export IsoText.

(** ** [month_range] (src/main.py, lines 67-75) *)

Definition month_range (month : string) : option (date * date) :=
  match strptime_ymd (month ++ "-01")%string with
  | None => None
  | Some start =>
      if Calendar.month start =? 12
      then match mk_date (year start + 1) 1 1 with
           | Some next_month => Some (start, next_month)
           | None => None
           end
      else match mk_date (year start) (Calendar.month start + 1) 1 with
           | Some next_month => Some (start, next_month)
           | None => None
           end
  end.

(** ** Timestamps (Python's naive [datetime.datetime]) *)

Module Timestamp.

Record datetime : Type := Datetime {
  dt_date : date; hour : Z; minute : Z; second : Z; microsecond : Z }.

Definition valid_datetime (t : datetime) : bool :=
  valid_date (dt_date t)
  && (0 <=? hour t) && (hour t <? 24)
  && (0 <=? minute t) && (minute t <? 60)
  && (0 <=? second t) && (second t <? 60)
  && (0 <=? microsecond t) && (microsecond t <? 1000000).

Definition lex (c d : comparison) : comparison :=
  match c with Eq => d | _ => c end.

(** Timestamps compare field by field, most significant first. *)
Definition datetime_compare (a b : datetime) : comparison :=
  lex (date_compare (dt_date a) (dt_date b))
 (lex (hour a ?= hour b)
 (lex (minute a ?= minute b)
 (lex (second a ?= second b)
      (microsecond a ?= microsecond b)))).

Definition datetime_ltb (a b : datetime) : bool :=
  match datetime_compare a b with Lt => true | _ => false end.

(** [datetime.isoformat()]: the fraction is written only when it is not 0. *)
Definition datetime_isoformat (t : datetime) : string :=
  (date_isoformat (dt_date t) ++ "T" ++ zpad 2 (hour t) ++ ":" ++ zpad 2 (minute t)
   ++ ":" ++ zpad 2 (second t)
   ++ (if (microsecond t =? 0)%Z then "" else "." ++ zpad 6 (microsecond t)))%string.

End Timestamp.
Export Timestamp.

(** ** Amounts (Python's [float]) *)

Module Money.

(** The integer nearest to [n / d], for [0 < d]; of two nearest ones, the
    even one. *)
Definition round_half_even (n d : Z) : Z :=
  let f := n / d in
  match 2 * (n mod d) ?= d with
  | Lt => f
  | Gt => f + 1
  | Eq => if Z.even f then f else f + 1
  end.

(** [float(n)] for an integer of less than 2^63 in size: the float nearest to
    [n], which is [n] itself up to 2^53. *)
Definition float_of_Z (n : Z) : float :=
  if n <? 0 then PrimFloat.opp (PrimFloat.of_uint63 (Uint63.of_Z (- n)))
  else PrimFloat.of_uint63 (Uint63.of_Z n).

(** The builtin [round(x, 2)] on a float.  The exact value of [x], which is
    [m * 2^e] up to its sign, is rounded to the nearest multiple [k / 100] of
    one hundredth, ties to the even [k]; the result is the float nearest to
    [k / 100], which the division gives, with the sign of [x].  From 2^53
    hundredths on, neighbouring floats are more than 0.01 apart and [x] is
    returned; so are the infinities and the NaN. *)
Definition round2 (x : float) : float :=
  match Prim2SF x with
  | S754_finite s m e =>
      let k := if 0 <=? e then 100 * Zpos m * 2 ^ e
               else round_half_even (100 * Zpos m) (2 ^ (- e)) in
      if k <? 2 ^ 53
      then let r := PrimFloat.div (float_of_Z k) (float_of_Z 100) in
           if s then PrimFloat.opp r else r
      else x
  | _ => x
  end.

(** The builtin [sum]: it starts from 0 and adds the items from left to
    right, one float addition each (CPython up to 3.11; later versions
    compensate the rounding of the partial sums). *)
Definition py_sum (l : list float) : float := fold_left PrimFloat.add l 0%float.

End Money.
Export Money.

(** ** Store identifiers ([bson.ObjectId]) *)

Module Oid.

(** A sequence of bytes is a [string]. *)
Definition bytes : Type := string.

Definition is_space (c : ascii) : bool :=
  let n := Z.of_N (N_of_ascii c) in ((9 <=? n) && (n <=? 13)) || (n =? 32).

Definition hex_val (c : ascii) : option Z :=
  let n := Z.of_N (N_of_ascii c) in
  if (48 <=? n) && (n <=? 57) then Some (n - 48)
  else if (97 <=? n) && (n <=? 102) then Some (n - 87)
  else if (65 <=? n) && (n <=? 70) then Some (n - 55)
  else None.

Definition hex_char (n : Z) : ascii :=
  ascii_of_N (Z.to_N (if n <? 10 then 48 + n else 87 + n)).

(** [bytes.fromhex]: white space may stand before each pair of digits and at
    the end; [None] is [ValueError]. *)
Fixpoint fromhex (s : string) : option bytes :=
  match s with
  | "" => Some ""
  | String c r =>
      if is_space c then fromhex r
      else match hex_val c, r with
           | Some top, String c' r' =>
               match hex_val c' with
               | Some bot =>
                   match fromhex r' with
                   | Some b => Some (String (ascii_of_N (Z.to_N (16 * top + bot))) b)
                   | None => None
                   end
               | None => None
               end
           | _, _ => None
           end
  end.

(** [ObjectId(s)] for a [str]: 24 characters that [bytes.fromhex] accepts;
    [None] is [InvalidId].  What [fromhex] accepts is hex digits and white
    space of ASCII, one byte each, so the 24 characters are counted as bytes:
    a text with any other character is refused by either count. *)
Definition ObjectId (s : string) : option bytes :=
  if (String.length s =? 24)%nat then fromhex s else None.

(** [str(oid)]: two lower-case hex digits per byte. *)
Fixpoint oid_str (b : bytes) : string :=
  match b with
  | "" => ""
  | String c r =>
      let n := Z.of_N (N_of_ascii c) in
      String (hex_char (n / 16)) (String (hex_char (n mod 16)) (oid_str r))
  end.

End Oid.
Export Oid.

(** ** Data model (the schemas of src/main.py, lines 24-46) *)

Inductive account_type : Type := cash | bank | ewallet.
Inductive flow : Type := income | expense.

Definition flow_eqb (a b : flow) : bool :=
  match a, b with
  | income, income | expense, expense => true
  | _, _ => false
  end.

Record AccountIn : Type := {
  ai_name : string; ai_type : account_type;
  ai_initial_balance : float; ai_color : option string }.

Record CategoryIn : Type := {
  ci_name : string; ci_type : flow; ci_color : option string }.

Record TransactionIn : Type := {
  ti_date : date; ti_amount : float; ti_type : flow;
  ti_category_id : string; ti_account_id : string; ti_note : option string }.

Record BudgetIn : Type := {
  bi_category_id : string; bi_month : string; bi_amount : float }.

(** A transaction after [serialize]: its date is text. *)
Record TransactionFields : Type := {
  tf_date : string; tf_amount : float; tf_type : flow;
  tf_category_id : string; tf_account_id : string; tf_note : option string }.

(** A stored record: the fields of its schema, the identifier the store
    assigned ([_id]) and the creation timestamp the gateway stamped. *)
Record stored (P : Type) : Type := Stored {
  doc_id : bytes; doc_created_at : datetime; doc_fields : P }.
Arguments Stored {P}.
Arguments doc_id {P}.
Arguments doc_created_at {P}.
Arguments doc_fields {P}.

(** A record after [serialize]: [id] is text, and so is every date. *)
Record item (P : Type) : Type := Item {
  id : string; created_at : string; fields : P }.
Arguments Item {P}.
Arguments id {P}.
Arguments created_at {P}.
Arguments fields {P}.

(** The four collections, each in the order the store lists it. *)
Record store : Type := Store {
  account : list (stored AccountIn);
  category : list (stored CategoryIn);
  transaction : list (stored TransactionIn);
  budget : list (stored BudgetIn) }.

(** ** Document store gateway *)

(** What the environment supplies to one insertion: the identifier the store
    assigns and the reading of the clock. *)
Record env : Type := Env { fresh_oid : bytes; now : datetime }.

(** Modelled from the spec: [create_document] of the module [database], which
    is not among the sources.  It inserts one record into the named
    collection, stamps it with a creation timestamp, and returns the new
    identifier as text (spec 4.1). *)
Definition create_document {P} (e : env) (payload : P) (coll : list (stored P))
  : string * list (stored P) :=
  (oid_str (fresh_oid e), coll ++ [Stored (fresh_oid e) (now e) payload]).

(** Modelled from the spec: [get_documents] of the module [database]: all
    records of the collection, with no filter and no sort (spec 4.1). *)
Definition get_documents {P} (coll : list (stored P)) : list (stored P) := coll.

(** [collection.find_one({"_id": oid})]: the first record with that [_id]. *)
Definition find_one {P} (oid : bytes) (coll : list (stored P)) : option (stored P) :=
  find (fun d => String.eqb (doc_id d) oid) coll.

(** ** [serialize] (src/main.py, lines 52-64) *)

(** [_id] becomes [id = str(_id)]; [created_at] and every date among the
    fields ([conv]) become ISO text. *)
Definition serialize {P P'} (conv : P -> P') (d : stored P) : item P' :=
  Item (oid_str (doc_id d)) (datetime_isoformat (doc_created_at d)) (conv (doc_fields d)).

Definition transaction_fields (p : TransactionIn) : TransactionFields :=
  {| tf_date := date_isoformat (ti_date p); tf_amount := ti_amount p;
     tf_type := ti_type p; tf_category_id := ti_category_id p;
     tf_account_id := ti_account_id p; tf_note := ti_note p |}.

Definition same {P} (p : P) : P := p.

(** ** Month filter and ordering of the listing (lines 147-160) *)

(** [if month:] holds for a string that is not empty. *)
Definition truthy (month : option string) : option string :=
  match month with
  | Some "" => None
  | Some m => Some m
  | None => None
  end.

(** The local function [in_month]; [None] is the [ValueError] of
    [fromisoformat]. *)
Definition in_month (start next_month : date) (d : string) : option bool :=
  match date_fromisoformat d with
  | Some dd => Some (date_leb start dd && date_ltb dd next_month)
  | None => None
  end.

(** A list comprehension [[t for t in l if p(t)]] whose test may raise. *)
Fixpoint filter_raising {A} (p : A -> option bool) (l : list A) : option (list A) :=
  match l with
  | [] => Some []
  | x :: r =>
      match p x with
      | None => None
      | Some b =>
          match filter_raising p r with
          | None => None
          | Some r' => Some (if b then x :: r' else r')
          end
      end
  end.

(** The lines that [list_transactions] and [summary] share: the items of the
    month when a month is given, all items otherwise. *)
Definition month_filter (month : option string) (items : list (item TransactionFields))
  : outcome (list (item TransactionFields)) :=
  match truthy month with
  | Some m =>
      match month_range m with
      | None => Unhandled ValueError
      | Some (start, next_month) =>
          of_option ValueError
            (filter_raising (fun t => in_month start next_month (tf_date (fields t))) items)
      end
  | None => Return items
  end.

(** The sort key [(x.get("date"), x.get("created_at"))]; tuples compare
    component by component, strings by code point. *)
Definition sort_key (x : item TransactionFields) : string * string :=
  (tf_date (fields x), created_at x).

Definition key_compare (a b : string * string) : comparison :=
  match String.compare (fst a) (fst b) with
  | Eq => String.compare (snd a) (snd b)
  | c => c
  end.

Definition key_ltb (a b : string * string) : bool :=
  match key_compare a b with Lt => true | _ => false end.

(** [list.sort(key=..., reverse=True)]: descending by key, and stable: items
    with equal keys keep their order. *)
Fixpoint insert_desc {A} (key : A -> string * string) (x : A) (l : list A) : list A :=
  match l with
  | [] => [x]
  | y :: r => if key_ltb (key x) (key y) then y :: insert_desc key x r else x :: l
  end.

Definition sort_desc {A} (key : A -> string * string) (l : list A) : list A :=
  fold_right (insert_desc key) [] l.

Definition list_transactions (month : option string) (st : store)
  : outcome (list (item TransactionFields)) :=
  let txs := get_documents (transaction st) in
  let items := map (serialize transaction_fields) txs in
  items <- month_filter month items ;;
  Return (sort_desc sort_key items).

(** ** Write handlers *)

(** The body [{"id": ...}] of a successful write. *)
Record IdOut : Type := { new_id : string }.

Definition create_account (e : env) (payload : AccountIn) (st : store)
  : outcome IdOut * store :=
  let '(account_id, coll) := create_document e payload (account st) in
  (Return {| new_id := account_id |},
   Store coll (category st) (transaction st) (budget st)).

Definition create_category (e : env) (payload : CategoryIn) (st : store)
  : outcome IdOut * store :=
  let '(category_id, coll) := create_document e payload (category st) in
  (Return {| new_id := category_id |},
   Store (account st) coll (transaction st) (budget st)).

(** Lines 163-172. *)
Definition create_transaction (e : env) (payload : TransactionIn) (st : store)
  : outcome IdOut * store :=
  match ObjectId (ti_account_id payload) with
  | None => (Unhandled InvalidId, st)
  | Some a =>
      match find_one a (account st) with
      | None => (HTTPException 400 "Account not found", st)
      | Some _ =>
          match ObjectId (ti_category_id payload) with
          | None => (Unhandled InvalidId, st)
          | Some c =>
              match find_one c (category st) with
              | None => (HTTPException 400 "Category not found", st)
              | Some _ =>
                  let '(tx_id, coll) := create_document e payload (transaction st) in
                  (Return {| new_id := tx_id |},
                   Store (account st) (category st) coll (budget st))
              end
          end
      end
  end.

(** Lines 187-197. *)
Definition create_budget (e : env) (payload : BudgetIn) (st : store)
  : outcome IdOut * store :=
  match ObjectId (bi_category_id payload) with
  | None => (Unhandled InvalidId, st)
  | Some c =>
      match find_one c (category st) with
      | None => (HTTPException 400 "Category not found", st)
      | Some cat =>
          if negb (flow_eqb (ci_type (doc_fields cat)) expense)
          then (HTTPException 400 "Budget only allowed for expense categories", st)
          else
            let '(b_id, coll) := create_document e payload (budget st) in
            (Return {| new_id := b_id |},
             Store (account st) (category st) (transaction st) coll)
      end
  end.

(** ** Read handlers *)

Definition list_accounts (st : store) : list (item AccountIn) :=
  map (serialize same) (get_documents (account st)).

Definition list_categories (st : store) : list (item CategoryIn) :=
  map (serialize same) (get_documents (category st)).

Definition list_budgets (month : option string) (st : store) : list (item BudgetIn) :=
  let items := map (serialize same) (get_documents (budget st)) in
  match truthy month with
  | Some m => filter (fun b => String.eqb (bi_month (fields b)) m) items
  | None => items
  end.

(** ** Summary (lines 203-266) *)

(** A Python [dict] with text keys: pairs in insertion order; assigning to a
    key that is present replaces its value in place. *)
Definition dict (V : Type) : Type := list (string * V).

Fixpoint dict_set {V} (k : string) (v : V) (d : dict V) : dict V :=
  match d with
  | [] => [(k, v)]
  | (k', v') :: r => if String.eqb k' k then (k', v) :: r else (k', v') :: dict_set k v r
  end.

Fixpoint dict_get {V} (k : string) (d : dict V) : option V :=
  match d with
  | [] => None
  | (k', v') :: r => if String.eqb k' k then Some v' else dict_get k r
  end.

Definition dict_values {V} (d : dict V) : list V := map snd d.

Record AccountBalance : Type := {
  ab_name : string; ab_color : option string; ab_balance : float }.

Record BudgetStatus : Type := {
  bs_budget_id : string; bs_category_id : string; bs_month : string;
  bs_amount : float; bs_spent : float; bs_remaining : float }.

Record SummaryOut : Type := {
  total_income : float;
  total_expense : float;
  overall_balance : float;
  accounts : dict AccountBalance;
  categories : list (item CategoryIn);
  transactions : list (item TransactionFields);
  budgets : list BudgetStatus }.

(** [sum(t["amount"] for t in txs if test(t))] *)
Definition sum_amounts (test : item TransactionFields -> bool)
  (txs : list (item TransactionFields)) : float :=
  py_sum (map (fun t => tf_amount (fields t)) (filter test txs)).

(** One turn of the inner loop of lines 225-230. *)
Definition balance_step (acc_id : string) (balance : float) (t : item TransactionFields)
  : float :=
  if String.eqb (tf_account_id (fields t)) acc_id
  then if flow_eqb (tf_type (fields t)) income
       then (balance + tf_amount (fields t))%float
       else (balance - tf_amount (fields t))%float
  else balance.

(** The balance of one account before it is rounded. *)
Definition account_balance (all_txs : list (item TransactionFields)) (acc : item AccountIn)
  : float :=
  fold_left (balance_step (id acc)) all_txs (ai_initial_balance (fields acc)).

(** One turn of the outer loop of lines 222-235. *)
Definition account_step (all_txs : list (item TransactionFields))
  (account_balances : dict AccountBalance) (acc : item AccountIn) : dict AccountBalance :=
  dict_set (id acc)
    {| ab_name := ai_name (fields acc);
       ab_color := ai_color (fields acc);
       ab_balance := round2 (account_balance all_txs acc) |}
    account_balances.

(** The entry appended for one budget of the month (lines 246-256). *)
Definition budget_entry (month : string) (txs : list (item TransactionFields))
  (b : item BudgetIn) : BudgetStatus :=
  let spent :=
    sum_amounts (fun t => String.eqb (tf_category_id (fields t)) (bi_category_id (fields b))
                          && flow_eqb (tf_type (fields t)) expense) txs in
  {| bs_budget_id := id b;
     bs_category_id := bi_category_id (fields b);
     bs_month := month;
     bs_amount := bi_amount (fields b);
     bs_spent := round2 spent;
     bs_remaining := round2 (bi_amount (fields b) - spent)%float |}.

Definition summary (month : option string) (st : store) : outcome SummaryOut :=
  let accounts := map (serialize same) (get_documents (account st)) in
  let categories := map (serialize same) (get_documents (category st)) in
  let txs := map (serialize transaction_fields) (get_documents (transaction st)) in
  txs <- month_filter month txs ;;
  let total_income := sum_amounts (fun t => flow_eqb (tf_type (fields t)) income) txs in
  let total_expense := sum_amounts (fun t => flow_eqb (tf_type (fields t)) expense) txs in
  let all_txs := map (serialize transaction_fields) (get_documents (transaction st)) in
  let account_balances := fold_left (account_step all_txs) accounts [] in
  let overall_balance := round2 (py_sum (map ab_balance (dict_values account_balances))) in
  let budgets := map (serialize same) (get_documents (budget st)) in
  let budget_status :=
    match truthy month with
    | Some m =>
        map (budget_entry m txs)
            (filter (fun b => String.eqb (bi_month (fields b)) m) budgets)
    | None => []
    end in
  Return {| total_income := round2 total_income;
            total_expense := round2 total_expense;
            overall_balance := overall_balance;
            accounts := account_balances;
            categories := categories;
            transactions := firstn 50 txs;
            budgets := budget_status |}.

(** ** Vocabulary of the statements *)

(** What [month_range] returns on a token [YYYY-MM] of the query pattern, from
    its year [y] and month [m]. *)
Definition month_range_result (y m : Z) : option (date * date) :=
  if (1 <=? y) && (1 <=? m) && (m <=? 12) && negb ((y =? 9999) && (m =? 12))
  then Some (Date y m 1, if m =? 12 then Date (y + 1) 1 1 else Date y (m + 1) 1)
  else None.

(** A stored transaction whose date and creation timestamp are values that
    Python's [date] and [datetime] can hold. *)
Definition well_formed (t : stored TransactionIn) : bool :=
  valid_date (ti_date (doc_fields t)) && valid_datetime (doc_created_at t).

(** [start <= date < next_month] on the date of a stored transaction. *)
Definition dated_within (start next_month : date) (t : stored TransactionIn) : bool :=
  date_leb start (ti_date (doc_fields t)) && date_ltb (ti_date (doc_fields t)) next_month.

(** The transactions a request with this [month] parameter is about. *)
Definition requested (month : option string) (t : stored TransactionIn) : bool :=
  match truthy month with
  | Some m =>
      match month_range m with
      | Some (start, next_month) => dated_within start next_month t
      | None => false
      end
  | None => true
  end.

(** The running balance of the account with the identifier text [acc_id]:
    the stored transactions are taken one after the other, in store order; an
    income transaction that names the account adds its amount, an expense
    transaction that names it takes its amount off. *)
Fixpoint running_balance (acc_id : string) (balance : float)
  (txs : list (stored TransactionIn)) : float :=
  match txs with
  | [] => balance
  | t :: r =>
      running_balance acc_id
        (if String.eqb (ti_account_id (doc_fields t)) acc_id
         then match ti_type (doc_fields t) with
              | income => (balance + ti_amount (doc_fields t))%float
              | expense => (balance - ti_amount (doc_fields t))%float
              end
         else balance)
        r
  end.

(** The composite order of the listing: by date, then by creation timestamp. *)
Definition recency_compare (a b : stored TransactionIn) : comparison :=
  lex (date_compare (ti_date (doc_fields a)) (ti_date (doc_fields b)))
      (datetime_compare (doc_created_at a) (doc_created_at b)).

(** A list in which no item is below an item that follows it. *)
Definition descending {A} (key : A -> string * string) : list A -> Prop :=
  StronglySorted (fun a b => key_ltb (key a) (key b) = false).

(** The integers [lo], [lo + 1], ..., [lo + len - 1]. *)
Definition zrange (lo : Z) (len : nat) : list Z :=
  map (fun k => lo + Z.of_nat k) (seq 0 len).

(** The text [s] is the identifier of a record of the collection. *)
Definition resolves {P} (s : string) (coll : list (stored P)) : bool :=
  match ObjectId s with
  | Some oid => match find_one oid coll with Some _ => true | None => false end
  | None => false
  end.

(** ** Records as dictionaries: [serialize] on the records themselves *)

(** The values a stored record holds. *)
Inductive value : Type :=
| VNone
| VStr (s : string)
| VFloat (x : float)
| VObjectId (b : bytes)
| VDate (d : date)
| VDatetime (t : datetime).

(** [str(t)] for a [datetime]: [isoformat] with a blank for the [T]. *)
Definition datetime_str (t : datetime) : string :=
  (date_isoformat (dt_date t) ++ " " ++ zpad 2 (hour t) ++ ":" ++ zpad 2 (minute t)
   ++ ":" ++ zpad 2 (second t)
   ++ (if (microsecond t =? 0)%Z then "" else "." ++ zpad 6 (microsecond t)))%string.

(** [str(v)].  The text of a float is not modelled: it is the parameter
    [float_str]. *)
Definition py_str (float_str : float -> string) (v : value) : string :=
  match v with
  | VNone => "None"
  | VStr s => s
  | VFloat x => float_str x
  | VObjectId b => oid_str b
  | VDate d => date_isoformat d
  | VDatetime t => datetime_str t
  end.

(** [del d[k]] *)
Definition dict_del {V} (k : string) (d : dict V) : dict V :=
  filter (fun kv => negb (String.eqb (fst kv) k)) d.

(** [v.isoformat()] where [isinstance(v, (datetime, date))], [v] otherwise. *)
Definition transport (v : value) : value :=
  match v with
  | VDate d => VStr (date_isoformat d)
  | VDatetime t => VStr (datetime_isoformat t)
  | _ => v
  end.

(** [serialize] as lines 52-64 write it, on a dictionary. *)
Definition serialize_doc (float_str : float -> string) (doc : dict value) : dict value :=
  match doc with
  | [] => doc
  | _ :: _ =>
      let d := doc in
      let _id := dict_get "_id" d in
      let d :=
        match _id with
        | None | Some VNone => d
        | Some v => dict_del "_id" (dict_set "id" (VStr (py_str float_str v)) d)
        end in
      map (fun kv => (fst kv, transport (snd kv))) d
  end.

Definition flow_text (f : flow) : string :=
  match f with income => "income" | expense => "expense" end.

Definition optional_text (o : option string) : value :=
  match o with Some s => VStr s | None => VNone end.

(** A stored transaction as the dictionary the store hands out. *)
Definition transaction_doc (t : stored TransactionIn) : dict value :=
  [("_id", VObjectId (doc_id t));
   ("date", VDate (ti_date (doc_fields t)));
   ("amount", VFloat (ti_amount (doc_fields t)));
   ("type", VStr (flow_text (ti_type (doc_fields t))));
   ("category_id", VStr (ti_category_id (doc_fields t)));
   ("account_id", VStr (ti_account_id (doc_fields t)));
   ("note", optional_text (ti_note (doc_fields t)));
   ("created_at", VDatetime (doc_created_at t))].

(** A serialized transaction as a dictionary. *)
Definition transaction_item_doc (i : item TransactionFields) : dict value :=
  [("date", VStr (tf_date (fields i)));
   ("amount", VFloat (tf_amount (fields i)));
   ("type", VStr (flow_text (tf_type (fields i))));
   ("category_id", VStr (tf_category_id (fields i)));
   ("account_id", VStr (tf_account_id (fields i)));
   ("note", optional_text (tf_note (fields i)));
   ("created_at", VStr (created_at i));
   ("id", VStr (id i))].

Definition is_date_value (v : value) : bool :=
  match v with VDate _ | VDatetime _ => true | _ => false end.

(** ** More vocabulary *)

(** The test of the month filter on a serialized transaction; a date that
    does not parse counts as outside. *)
Definition item_in_month (start next_month : date) (i : item TransactionFields) : bool :=
  match in_month start next_month (tf_date (fields i)) with
  | Some b => b
  | None => false
  end.

(** The store after a write keeps every record it had: each collection of
    [st'] starts with the whole collection of [st]. *)
Definition extends (st st' : store) : Prop :=
  (exists l, account st' = account st ++ l)
  /\ (exists l, category st' = category st ++ l)
  /\ (exists l, transaction st' = transaction st ++ l)
  /\ (exists l, budget st' = budget st ++ l).

(** The number of records in the four collections. *)
Definition records (st : store) : nat :=
  (List.length (account st) + List.length (category st)
   + List.length (transaction st) + List.length (budget st))%nat.

(** ** Sample data *)

Module Sample.

(** The float nearest to [n / d]. *)
Definition q (n : Z) (d : positive) : float :=
  PrimFloat.div (float_of_Z n) (float_of_Z (Zpos d)).

Definition noon : datetime := Datetime (Date 2024 3 1) 12 0 0 0.
Definition after_noon : datetime := Datetime (Date 2024 3 1) 12 0 0 500000.

Definition oid_A : bytes := "AAAAAAAAAAAA".
Definition oid_B : bytes := "BBBBBBBBBBBB".
Definition oid_C : bytes := "CCCCCCCCCCCC".
Definition oid_S : bytes := "SSSSSSSSSSSS".
Definition oid_G : bytes := "GGGGGGGGGGGG".

Definition id_A : string := "414141414141414141414141".
Definition id_C : string := "434343434343434343434343".
Definition id_S : string := "535353535353535353535353".

Definition account_A : stored AccountIn :=
  Stored oid_A noon
    {| ai_name := "A"; ai_type := bank; ai_initial_balance := q 100 1;
       ai_color := Some "#6366F1" |}.

Definition category_C : stored CategoryIn :=
  Stored oid_C noon {| ci_name := "C"; ci_type := expense; ci_color := Some "#22C55E" |}.

Definition category_S : stored CategoryIn :=
  Stored oid_S noon {| ci_name := "S"; ci_type := income; ci_color := Some "#22C55E" |}.

Definition spend (oid : bytes) (d : date) (amount : float) (at_ : datetime)
  : stored TransactionIn :=
  Stored oid at_
    {| ti_date := d; ti_amount := amount; ti_type := expense;
       ti_category_id := id_C; ti_account_id := id_A; ti_note := None |}.

Definition earn (oid : bytes) (d : date) (amount : float) (at_ : datetime)
  : stored TransactionIn :=
  Stored oid at_
    {| ti_date := d; ti_amount := amount; ti_type := income;
       ti_category_id := id_S; ti_account_id := id_A; ti_note := None |}.

Definition T1 : stored TransactionIn := spend "TTTTTTTTTTT1" (Date 2024 3 15) (q 30 1) noon.
Definition T2 : stored TransactionIn := earn "TTTTTTTTTTT2" (Date 2024 3 16) (q 5 1) noon.
Definition T3 : stored TransactionIn := spend "TTTTTTTTTTT3" (Date 2024 3 16) (q 7 1) after_noon.
Definition T4 : stored TransactionIn := spend "TTTTTTTTTTT4" (Date 2024 4 2) (q 11 1) noon.

Definition budget_B : stored BudgetIn :=
  Stored oid_B noon {| bi_category_id := id_C; bi_month := "2024-03"; bi_amount := q 20 1 |}.

(** One account that starts at 100, four transactions in the order they were
    created, and a budget of 20 for March 2024. *)
Definition ledger : store :=
  Store [account_A] [category_C; category_S] [T1; T2; T3; T4] [budget_B].

(** Two accounts that each start at 0.004, and nothing else. *)
Definition pennies : store :=
  Store [Stored oid_A noon {| ai_name := "A"; ai_type := cash;
                              ai_initial_balance := q 4 1000; ai_color := None |};
         Stored oid_G noon {| ai_name := "G"; ai_type := cash;
                              ai_initial_balance := q 4 1000; ai_color := None |}]
        [] [] [].

(** One account that starts at 0; it earns 1, earns 10^17, spends 10^17 and
    earns 1, in this order. *)
Definition drift : store :=
  Store [Stored oid_A noon {| ai_name := "A"; ai_type := bank;
                              ai_initial_balance := q 0 1; ai_color := None |}]
        [category_C; category_S]
        [earn "TTTTTTTTTTT1" (Date 2024 3 15) (q 1 1) noon;
         earn "TTTTTTTTTTT2" (Date 2024 3 16) (q 100000000000000000 1) noon;
         spend "TTTTTTTTTTT3" (Date 2024 3 17) (q 100000000000000000 1) noon;
         earn "TTTTTTTTTTT4" (Date 2024 3 18) (q 1 1) noon]
        [].

(** One account that starts at 0; it earns 0.001, spends 0.002 and earns
    0.016, in this order. *)
Definition mills : store :=
  Store [Stored oid_A noon {| ai_name := "A"; ai_type := bank;
                              ai_initial_balance := q 0 1; ai_color := None |}]
        [category_C; category_S]
        [earn "TTTTTTTTTTT1" (Date 2024 3 15) (q 1 1000) noon;
         spend "TTTTTTTTTTT2" (Date 2024 3 16) (q 2 1000) noon;
         earn "TTTTTTTTTTT3" (Date 2024 3 17) (q 16 1000) noon]
        [].

Definition request_env : env := Env "NNNNNNNNNNNN" after_noon.

Definition new_spend (account_id category_id : string) : TransactionIn :=
  {| ti_date := Date 2024 3 20; ti_amount := q 12 1; ti_type := expense;
     ti_category_id := category_id; ti_account_id := account_id; ti_note := None |}.

Definition new_budget (category_id : string) : BudgetIn :=
  {| bi_category_id := category_id; bi_month := "2024-04"; bi_amount := q 80 1 |}.

End Sample.

(** * Properties *)

(** ** Digits *)

(** Case analysis over a short range of integers, or over the digits. *)
Lemma in_zrange (lo n : Z) (len : nat) :
  lo <= n < lo + Z.of_nat len -> In n (zrange lo len).
Proof.
  intro H. unfold zrange. apply in_map_iff. exists (Z.to_nat (n - lo)).
  split; [lia | apply in_seq; lia].
Qed.

Ltac split_in H :=
  cbn in H;
  repeat match type of H with
         | _ \/ _ => destruct H as [H | H]
         | False => contradiction
         end.

Ltac each_of n lo len :=
  let C := fresh "C" in
  pose proof (in_zrange lo n len ltac:(cbn; lia)) as C; split_in C; subst n.

Lemma is_digit_cases (c : ascii) :
  is_digit c = true -> In c (list_ascii_of_string "0123456789").
Proof.
  destruct c as [[] [] [] [] [] [] [] []]; intro H; try discriminate H;
    cbn; repeat ((left; reflexivity) || right).
Qed.

Lemma digit_val_range (c : ascii) : is_digit c = true -> 0 <= digit_val c <= 9.
Proof.
  intro H. apply is_digit_cases in H. split_in H; subst c; cbv; split; discriminate.
Qed.

Lemma digit_char_is_digit (n : Z) : 0 <= n <= 9 -> is_digit (digit_char n) = true.
Proof. intro H. each_of n 0 10%nat; reflexivity. Qed.

Lemma digit_val_char (n : Z) : 0 <= n <= 9 -> digit_val (digit_char n) = n.
Proof. intro H. each_of n 0 10%nat; reflexivity. Qed.

Lemma pow10_pos (k : nat) : 0 < 10 ^ Z.of_nat k.
Proof. apply Z.pow_pos_nonneg; lia. Qed.

Lemma pow10_succ (k : nat) : 10 ^ Z.of_nat (S k) = 10 * 10 ^ Z.of_nat k.
Proof. rewrite Nat2Z.inj_succ, Z.pow_succ_r by lia. reflexivity. Qed.

Lemma month_pattern_shape (tok : string) :
  month_pattern tok = true ->
  exists a b c d e f,
    tok = String a (String b (String c (String d (String "-" (String e (String f ""))))))
    /\ is_digit a = true /\ is_digit b = true /\ is_digit c = true
    /\ is_digit d = true /\ is_digit e = true /\ is_digit f = true.
Proof.
  destruct tok as [|a [|b [|c [|d [|h [|e [|f [|g r]]]]]]]];
    try (intro H; discriminate H);
    try (destruct h as [[] [] [] [] [] [] [] []]; intro H; discriminate H).
  destruct h as [[] [] [] [] [] [] [] []]; intro H; try discriminate H.
  cbn in H.
    apply andb_prop in H; destruct H as [H Hf]. apply andb_prop in H; destruct H as [H He].
    apply andb_prop in H; destruct H as [H Hd]. apply andb_prop in H; destruct H as [H Hc].
    apply andb_prop in H; destruct H as [Ha Hb].
  exists a, b, c, d, e, f. repeat split; assumption.
Qed.

Lemma token_numbers a b c d e f :
  is_digit a = true -> is_digit b = true -> is_digit c = true ->
  is_digit d = true -> is_digit e = true -> is_digit f = true ->
  let tok := String a (String b (String c (String d (String "-" (String e (String f "")))))) in
  token_year tok = 1000 * digit_val a + 100 * digit_val b + 10 * digit_val c + digit_val d
  /\ token_month tok = 10 * digit_val e + digit_val f.
Proof.
  intros Ha Hb Hc Hd He Hf tok. subst tok. unfold token_year, token_month.
  cbn [substring digits_val].
  rewrite Ha, Hb, Hc, Hd, He, Hf. split; lia.
Qed.

(** ** Decimal digits in a text *)

Lemma read_decimal_digit (c : ascii) (r : string) :
  is_digit c = true -> read_decimal (String c r) = Some (digit_val c, r).
Proof. intro H. apply is_digit_cases in H. split_in H; subst c; reflexivity. Qed.

Lemma read_decimal_hyphen (r : string) : read_decimal (String "-" r) = None.
Proof. reflexivity. Qed.

Lemma scalar_app (lo c : Z) (r t : string) (c' : Z) (r' : string) :
  scalar lo c r = Some (c', r') -> scalar lo c (r ++ t) = Some (c', (r' ++ t)%string).
Proof.
  unfold scalar. destruct (_ && _); [|discriminate]. intros [= <- <-]. reflexivity.
Qed.

(** What [decode] reads does not depend on the text after it. *)
Lemma decode_app (s t : string) (c : Z) (r : string) :
  decode s = Some (c, r) -> decode (s ++ t) = Some (c, (r ++ t)%string).
Proof.
  unfold decode. destruct s as [|b0 r0]; [discriminate|]. cbn [append].
  destruct (byte b0 <? 128); [intros [= <- <-]; reflexivity|].
  destruct (byte b0 <? 192); [discriminate|].
  destruct (byte b0 <? 224).
  { destruct r0 as [|b1 r1]; [discriminate|]. cbn [append].
    destruct (continuation b1); [|discriminate]. apply scalar_app. }
  destruct (byte b0 <? 240).
  { destruct r0 as [|b1 [|b2 r2]]; try discriminate. cbn [append].
    destruct (continuation b1 && continuation b2); [|discriminate]. apply scalar_app. }
  destruct r0 as [|b1 [|b2 [|b3 r3]]]; try discriminate. cbn [append].
  destruct (continuation b1 && continuation b2 && continuation b3); [|discriminate].
  apply scalar_app.
Qed.

Lemma read_decimal_app (s t : string) (v : Z) (r : string) :
  read_decimal s = Some (v, r) -> read_decimal (s ++ t) = Some (v, (r ++ t)%string).
Proof.
  unfold read_decimal. destruct (decode s) as [[c r0]|] eqn:D; [|discriminate].
  rewrite (decode_app _ t _ _ D). destruct (decimal c); [|discriminate].
  intros [= <- <-]. reflexivity.
Qed.

Lemma read_decimals_app (n : nat) : forall (acc : Z) (s t : string) (v : Z) (r : string),
  read_decimals n acc s = Some (v, r) ->
  read_decimals n acc (s ++ t) = Some (v, (r ++ t)%string).
Proof.
  induction n as [|n IH]; cbn [read_decimals]; intros acc s t v r H.
  - injection H as <- <-. reflexivity.
  - destruct (read_decimal s) as [[v0 r0]|] eqn:R; [|discriminate].
    rewrite (read_decimal_app _ t _ _ R). now apply IH.
Qed.

Lemma decimal_range (c v : Z) : decimal c = Some v -> 0 <= v <= 9.
Proof.
  unfold decimal. destruct (find _ decimal_zeros) as [z|] eqn:F; [|discriminate].
  apply find_some in F. destruct F as [_ F]. intros [= <-].
  apply andb_prop in F. destruct F as [L U]. apply Z.leb_le in L, U. lia.
Qed.

Lemma read_decimal_range (s : string) (v : Z) (r : string) :
  read_decimal s = Some (v, r) -> 0 <= v <= 9.
Proof.
  unfold read_decimal. destruct (decode s) as [[c r0]|]; [|discriminate].
  destruct (decimal c) as [w|] eqn:D; [|discriminate]. intros [= <- _].
  now apply decimal_range in D.
Qed.

Lemma read_decimals_succ (n : nat) (acc : Z) (s : string) :
  read_decimals (S n) acc s
  = match read_decimal s with
    | Some (v, r) => read_decimals n (10 * acc + v) r
    | None => None
    end.
Proof. reflexivity. Qed.

Lemma read_decimals_range (n : nat) : forall (acc : Z) (s : string) (v : Z) (r : string),
  read_decimals n acc s = Some (v, r) ->
  10 ^ Z.of_nat n * acc <= v < 10 ^ Z.of_nat n * acc + 10 ^ Z.of_nat n.
Proof.
  induction n as [|n IH]; intros acc s v r H.
  - injection H as <- _. change (Z.of_nat 0) with 0. rewrite Z.pow_0_r. lia.
  - rewrite read_decimals_succ in H.
    destruct (read_decimal s) as [[d r0]|] eqn:R; [|discriminate].
    apply read_decimal_range in R. apply IH in H.
    rewrite pow10_succ. pose proof (pow10_pos n). nia.
Qed.

(** Four decimal digits denote a number up to 9999. *)
Lemma read_year_range (s : string) (y : Z) (r : string) :
  read_decimals 4 0 s = Some (y, r) -> 0 <= y <= 9999.
Proof.
  intro H. apply read_decimals_range in H.
  change (10 ^ Z.of_nat 4) with 10000 in H. lia.
Qed.

Lemma read_year_ascii (a b c d : ascii) (r : string) :
  is_digit a = true -> is_digit b = true -> is_digit c = true -> is_digit d = true ->
  read_decimals 4 0 (String a (String b (String c (String d r))))
  = Some (1000 * digit_val a + 100 * digit_val b + 10 * digit_val c + digit_val d, r).
Proof.
  intros Ha Hb Hc Hd.
  rewrite read_decimals_succ, (read_decimal_digit a _ Ha).
  rewrite read_decimals_succ, (read_decimal_digit b _ Hb).
  rewrite read_decimals_succ, (read_decimal_digit c _ Hc).
  rewrite read_decimals_succ, (read_decimal_digit d _ Hd).
  unfold read_decimals. do 2 f_equal. lia.
Qed.

Lemma strptime_token a b c d e f :
  is_digit a = true -> is_digit b = true -> is_digit c = true ->
  is_digit d = true -> is_digit e = true -> is_digit f = true ->
  let y := 1000 * digit_val a + 100 * digit_val b + 10 * digit_val c + digit_val d in
  let m := 10 * digit_val e + digit_val f in
  strptime_ymd (String a (String b (String c (String d (String "-" (String e (String f "-01")))))))
  = if (1 <=? m) && (m <=? 12) then mk_date y m 1 else None.
Proof.
  intros Ha Hb Hc Hd He Hf y m. subst m.
  unfold strptime_ymd, match_ymd, match_year.
  rewrite (read_year_ascii a b c d _ Ha Hb Hc Hd).
  fold y. generalize y; clear y Ha Hb Hc Hd a b c d; intro y.
  cbn [andb flat_map match_lit]. 
  apply is_digit_cases in He, Hf.
  split_in He; subst e; split_in Hf; subst f; reflexivity.
Qed.

Lemma days_in_month_range (y m : Z) : 1 <= m <= 12 -> 28 <= days_in_month y m <= 31.
Proof.
  intro H. each_of m 1 12%nat; cbn [days_in_month]; try lia.
  destruct (is_leap y); lia.
Qed.

Lemma mk_date_first (y m : Z) :
  1 <= m <= 12 ->
  mk_date y m 1 = if (1 <=? y) && (y <=? 9999) then Some (Date y m 1) else None.
Proof.
  intro H. pose proof (@days_in_month_range y m H) as D.
  unfold mk_date, valid_ymd, MINYEAR, MAXYEAR.
  replace (1 <=? m) with true by (symmetry; apply Z.leb_le; lia).
  replace (m <=? 12) with true by (symmetry; apply Z.leb_le; lia).
  replace (1 <=? days_in_month y m) with true by (symmetry; apply Z.leb_le; lia).
  rewrite !andb_true_r. reflexivity.
Qed.

(** ** [strptime] on the tokens of the query pattern *)

Lemma query_pattern_shape (tok : string) :
  query_pattern tok = true ->
  exists y r v r2,
    read_decimals 4 0 tok = Some (y, String "-" r)
    /\ read_decimals 2 0 r = Some (v, r2)
    /\ (r2 = "" \/ r2 = String "010" "").
Proof.
  unfold query_pattern.
  destruct (read_decimals 4 0 tok) as [[y [|h r]]|]; try discriminate.
  destruct h as [[] [] [] [] [] [] [] []]; try discriminate.
  destruct (read_decimals 2 0 r) as [[v [|c [|c' r2]]]|] eqn:M; try discriminate; intro H.
  - exists y, r, v, "". split; [reflexivity|]. split; [exact M | now left].
  - apply Ascii.eqb_eq in H. subst c. exists y, r, v, (String "010" "").
    split; [reflexivity|]. split; [exact M | now right].
Qed.

Lemma match_month_no_digit (b : ascii) (r : string) :
  is_digit b = false -> match_month (String b r) = [].
Proof.
  destruct b as [[] [] [] [] [] [] [] []]; intro H; try discriminate H; reflexivity.
Qed.

Lemma digits_val_no_digit (acc : Z) (b : ascii) (r : string) :
  is_digit b = false -> digits_val acc (String b r) = None.
Proof. intro H. cbn [digits_val]. now rewrite H. Qed.

(** The month and the day that [strptime] reads after the year of a token of
    the query pattern. *)
Lemma strptime_month_part (r r2 : string) (v : Z) :
  read_decimals 2 0 r = Some (v, r2) -> (r2 = "" \/ r2 = String "010" "") ->
  match match_month_day (r ++ "-01") with
  | (m, d, "") :: _ => Some (m, d)
  | _ => None
  end
  = match (if (String.length r =? 2)%nat then digits_val 0 r else None) with
    | Some m => if (1 <=? m) && (m <=? 12) then Some (m, 1) else None
    | None => None
    end.
Proof.
  intros R E. rewrite !read_decimals_succ in R.
  destruct (read_decimal r) as [[v1 r1]|] eqn:R1; [|discriminate].
  rewrite read_decimals_succ in R.
  destruct (read_decimal r1) as [[v2 r2']|] eqn:R2; [|discriminate].
  unfold read_decimals in R. injection R as _ <-.
  destruct r as [|b r0]; [discriminate R1|].
  destruct (is_digit b) eqn:Db.
  - rewrite (read_decimal_digit b r0 Db) in R1. injection R1 as _ <-.
    destruct r0 as [|b' r0']; [discriminate R2|].
    destruct (is_digit b') eqn:Db'.
    + rewrite (read_decimal_digit b' r0' Db') in R2. injection R2 as _ <-.
      apply is_digit_cases in Db, Db'.
      destruct E as [-> | ->];
        split_in Db; subst b; split_in Db'; subst b'; reflexivity.
    + assert (Ascii.eqb "-" b' = false) as N.
      { destruct (Ascii.eqb_spec "-" b') as [<-|]; [|reflexivity].
        rewrite read_decimal_hyphen in R2. discriminate R2. }
      replace (if (String.length (String b (String b' r0')) =? 2)%nat
               then digits_val 0 (String b (String b' r0')) else None)
        with (@None Z).
      2:{ destruct (_ =? _)%nat; [|reflexivity]. cbn [digits_val]. now rewrite Db, Db'. }
      unfold match_month_day. cbn [append].
      assert (match_month (String b (String b' (r0' ++ "-01")))
              = if in_range 1 9 b
                then [(digit_val b, String b' (r0' ++ "-01")%string)] else []) as ->.
      { apply is_digit_cases in Db. split_in Db; subst b;
          unfold match_month, in_range; cbv beta iota; rewrite ?Db'; reflexivity. }
      destruct (in_range 1 9 b); cbn [flat_map app]; [|reflexivity].
      unfold match_lit. rewrite N. reflexivity.
  - unfold match_month_day. cbn [append]. rewrite match_month_no_digit by assumption.
    cbn [flat_map]. destruct (_ =? _)%nat; [|reflexivity].
    now rewrite digits_val_no_digit.
Qed.

Lemma strptime_pattern (tok : string) :
  query_pattern tok = true ->
  strptime_ymd (tok ++ "-01")
  = match pattern_month tok with
    | Some m => if (1 <=? m) && (m <=? 12) then mk_date (pattern_year tok) m 1 else None
    | None => None
    end.
Proof.
  intro Q. destruct (query_pattern_shape _ Q) as (y & r & v & r2 & Y & M & E).
  unfold pattern_month, pattern_year. rewrite Y.
  unfold strptime_ymd, match_ymd, match_year.
  rewrite (read_decimals_app 4 0 tok "-01" _ _ Y).
  unfold match_lit at 1. cbn [append flat_map]. rewrite Ascii.eqb_refl.
  cbn [flat_map]. rewrite !app_nil_r.
  pose proof (strptime_month_part r r2 v M E) as S.
  destruct (if (String.length r =? 2)%nat then digits_val 0 r else None) as [m|].
  - destruct ((1 <=? m) && (m <=? 12)).
    + destruct (match_month_day (r ++ "-01")) as [|[[m' d] [|c rest]] l];
        try discriminate S. injection S as -> ->. reflexivity.
    + destruct (match_month_day (r ++ "-01")) as [|[[m' d] [|c rest]] l];
        try discriminate S; reflexivity.
  - destruct (match_month_day (r ++ "-01")) as [|[[m' d] [|c rest]] l];
      try discriminate S; reflexivity.
Qed.

(** [month_range] after [strptime]. *)
Lemma month_range_after_strptime (s : string) (y m : Z) :
  0 <= y <= 9999 ->
  strptime_ymd (s ++ "-01") = (if (1 <=? m) && (m <=? 12) then mk_date y m 1 else None) ->
  month_range s = month_range_result y m.
Proof.
  intros Hy S. unfold month_range. rewrite S. unfold month_range_result.
  destruct (Z.leb_spec 1 m); destruct (Z.leb_spec m 12); cbn [andb];
    rewrite ?andb_false_r; try reflexivity.
  rewrite mk_date_first by lia.
  replace (y <=? 9999) with true by (symmetry; apply Z.leb_le; lia).
  rewrite andb_true_r.
  destruct (Z.leb_spec 1 y); cbn [andb]; try reflexivity.
  cbn [Calendar.month year].
  destruct (Z.eqb_spec m 12) as [->|Nm].
  - rewrite mk_date_first by lia.
    destruct (Z.eqb_spec y 9999) as [->|Ny]; [reflexivity|].
    replace (1 <=? y + 1) with true by (symmetry; apply Z.leb_le; lia).
    replace (y + 1 <=? 9999) with true by (symmetry; apply Z.leb_le; lia).
    reflexivity.
  - rewrite andb_false_r. cbn [negb].
    unfold mk_date, valid_ymd, MINYEAR, MAXYEAR.
    pose proof (@days_in_month_range y (m + 1)).
    replace (1 <=? y) with true by (symmetry; apply Z.leb_le; lia).
    replace (y <=? 9999) with true by (symmetry; apply Z.leb_le; lia).
    replace (1 <=? m + 1) with true by (symmetry; apply Z.leb_le; lia).
    replace (m + 1 <=? 12) with true by (symmetry; apply Z.leb_le; lia).
    replace (1 <=? days_in_month y (m + 1)) with true by (symmetry; apply Z.leb_le; lia).
    reflexivity.
Qed.

Lemma month_range_spec (tok : string) :
  month_pattern tok = true ->
  month_range tok = month_range_result (token_year tok) (token_month tok).
Proof.
  intro H. destruct (@month_pattern_shape _ H) as (a & b & c & d & e & f & -> & Ha & Hb & Hc & Hd & He & Hf).
  destruct (@token_numbers _ _ _ _ _ _ Ha Hb Hc Hd He Hf) as [-> ->].
  pose proof (@digit_val_range _ Ha). pose proof (@digit_val_range _ Hb).
  pose proof (@digit_val_range _ Hc). pose proof (@digit_val_range _ Hd).
  apply month_range_after_strptime; [lia|].
  cbn [append]. apply (@strptime_token _ _ _ _ _ _ Ha Hb Hc Hd He Hf).
Qed.

(** On a token of the query pattern, [month_range] is decided by the year
    the four digits denote and by the month, if the month part is one in
    ASCII digits. *)
Lemma month_range_pattern (tok : string) :
  query_pattern tok = true ->
  month_range tok
  = match pattern_month tok with
    | Some m => month_range_result (pattern_year tok) m
    | None => None
    end.
Proof.
  intro Q. pose proof (strptime_pattern _ Q) as S.
  destruct (query_pattern_shape _ Q) as (y & r & v & r2 & Y & _).
  pose proof (read_year_range _ _ _ Y) as Hy.
  assert (pattern_year tok = y) as Ey by (unfold pattern_year; now rewrite Y).
  rewrite Ey in *.
  destruct (pattern_month tok) as [m|].
  - now apply month_range_after_strptime.
  - unfold month_range. now rewrite S.
Qed.

(** The tokens in ASCII digits are tokens of the query pattern, with the same
    year and month. *)
Lemma month_pattern_query (tok : string) :
  month_pattern tok = true ->
  query_pattern tok = true
  /\ pattern_year tok = token_year tok
  /\ pattern_month tok = Some (token_month tok).
Proof.
  intro H. destruct (@month_pattern_shape _ H) as (a & b & c & d & e & f & -> & Ha & Hb & Hc & Hd & He & Hf).
  destruct (@token_numbers _ _ _ _ _ _ Ha Hb Hc Hd He Hf) as [-> ->].
  unfold query_pattern, pattern_year, pattern_month.
  rewrite (read_year_ascii a b c d _ Ha Hb Hc Hd).
  rewrite read_decimals_succ, (read_decimal_digit e _ He).
  rewrite read_decimals_succ, (read_decimal_digit f _ Hf).
  cbn [read_decimals String.length Nat.eqb digits_val]. rewrite He, Hf.
  repeat split; try (f_equal; lia).
Qed.

Lemma query_pattern_nonempty (tok : string) :
  query_pattern tok = true -> truthy (Some tok) = Some tok.
Proof. destruct tok; [discriminate | reflexivity]. Qed.

Lemma year_length (y : Z) :
  days_before_year (y + 1) - days_before_year y = 365 + (if is_leap y then 1 else 0).
Proof.
  unfold days_before_year, is_leap.
  replace (y + 1 - 1) with y by lia.
  destruct (Z.eqb_spec (y mod 4) 0); destruct (Z.eqb_spec (y mod 100) 0);
    destruct (Z.eqb_spec (y mod 400) 0); cbn [andb orb negb];
    Z.div_mod_to_equations; lia.
Qed.

Lemma month_length (y m : Z) :
  1 <= m <= 12 ->
  date_sub (if m =? 12 then Date (y + 1) 1 1 else Date y (m + 1) 1) (Date y m 1)
  = days_in_month y m.
Proof.
  intro H. pose proof (year_length y) as L.
  unfold date_sub, toordinal.
  each_of m 1 12%nat;
    cbn [Z.eqb Z.add Pos.eqb Pos.add Pos.succ year Calendar.month day days_before_month days_in_month];
    destruct (is_leap y); cbn [days_before_month]; lia.
Qed.

Lemma append_assoc (a b c : string) : ((a ++ b) ++ c = a ++ (b ++ c))%string.
Proof. induction a as [|x a IH]; cbn [append]; [reflexivity | now rewrite IH]. Qed.

Lemma zpad_split (k : nat) (n : Z) :
  0 <= n < 10 ^ Z.of_nat (S k) ->
  0 <= n / 10 ^ Z.of_nat k <= 9 /\ 0 <= n mod 10 ^ Z.of_nat k < 10 ^ Z.of_nat k
  /\ n = 10 ^ Z.of_nat k * (n / 10 ^ Z.of_nat k) + n mod 10 ^ Z.of_nat k.
Proof.
  rewrite pow10_succ. pose proof (pow10_pos k) as P. intro H.
  pose proof (Z.div_mod n (10 ^ Z.of_nat k) ltac:(lia)) as E.
  pose proof (Z.mod_pos_bound n (10 ^ Z.of_nat k) P) as B.
  repeat split; try lia.
  - apply Z.div_pos; lia.
  - assert (n / 10 ^ Z.of_nat k < 10); [|lia].
    apply Z.div_lt_upper_bound; lia.
Qed.

(** Reading back what [zpad] wrote. *)
Lemma digits_val_zpad (w : nat) : forall n acc s,
  0 <= n < 10 ^ Z.of_nat w ->
  digits_val acc (zpad w n ++ s) = digits_val (acc * 10 ^ Z.of_nat w + n) s.
Proof.
  induction w as [|k IH]; intros n acc s H.
  - cbn [zpad append]. f_equal. cbn in H. cbn. lia.
  - destruct (zpad_split k n H) as (D & M & E).
    cbn [zpad append]. cbn [digits_val].
    rewrite digit_char_is_digit, digit_val_char by assumption.
    rewrite IH by assumption. f_equal. rewrite pow10_succ. 
    set (p := 10 ^ Z.of_nat k) in *. set (q := n / p) in *. set (r := n mod p) in *. nia.
Qed.

Lemma ascii_compare_refl (c : ascii) : Ascii.compare c c = Eq.
Proof. unfold Ascii.compare. apply N.compare_refl. Qed.

Lemma digit_char_compare (a b : Z) :
  0 <= a <= 9 -> 0 <= b <= 9 ->
  Ascii.compare (digit_char a) (digit_char b) = (a ?= b).
Proof.
  intros Ha Hb. each_of a 0 10%nat; each_of b 0 10%nat; reflexivity.
Qed.

(** Text of equal width compares as the numbers do. *)
Lemma compare_zpad (w : nat) : forall a b s t,
  0 <= a < 10 ^ Z.of_nat w -> 0 <= b < 10 ^ Z.of_nat w ->
  String.compare (zpad w a ++ s) (zpad w b ++ t) = lex (a ?= b) (String.compare s t).
Proof.
  induction w as [|k IH]; intros a b s t Ha Hb.
  - cbn in Ha, Hb. assert (a = 0) by lia. assert (b = 0) by lia. subst. reflexivity.
  - destruct (zpad_split k a Ha) as (Da & Ma & Ea).
    destruct (zpad_split k b Hb) as (Db & Mb & Eb).
    cbn [zpad append String.compare].
    rewrite digit_char_compare by assumption. rewrite IH by assumption.
    set (p := 10 ^ Z.of_nat k) in *. 
    set (qa := a / p) in *. set (ra := a mod p) in *.
    set (qb := b / p) in *. set (rb := b mod p) in *.
    destruct (Z.compare_spec qa qb) as [E|L|G]; cbn [lex].
    + destruct (Z.compare_spec ra rb) as [E'|L'|G']; cbn [lex].
      * replace (a ?= b) with Eq; [reflexivity|]. symmetry. apply Z.compare_eq_iff. nia.
      * replace (a ?= b) with Lt; [reflexivity|]. symmetry. apply Z.compare_lt_iff. nia.
      * replace (a ?= b) with Gt; [reflexivity|]. symmetry. apply Z.compare_gt_iff. nia.
    + replace (a ?= b) with Lt; [reflexivity|]. symmetry. apply Z.compare_lt_iff. nia.
    + replace (a ?= b) with Gt; [reflexivity|]. symmetry. apply Z.compare_gt_iff. nia.
Qed.

Lemma append_nil_r (s : string) : (s ++ "")%string = s.
Proof. induction s as [|c s IH]; cbn [append]; [reflexivity | now rewrite IH]. Qed.

Lemma digits_val_zpad0 (w : nat) (n : Z) :
  0 <= n < 10 ^ Z.of_nat w -> digits_val 0 (zpad w n) = Some n.
Proof.
  intro H. rewrite <- (append_nil_r (zpad w n)), digits_val_zpad by assumption.
  cbn [digits_val]. f_equal.
Qed.

Lemma valid_ymd_bounds (y m d : Z) :
  valid_ymd y m d = true ->
  1 <= y <= 9999 /\ 1 <= m <= 12 /\ 1 <= d <= days_in_month y m.
Proof.
  unfold valid_ymd, MINYEAR, MAXYEAR. intro H.
  repeat (apply andb_prop in H; let H' := fresh in destruct H as [H H']; apply Z.leb_le in H').
  apply Z.leb_le in H. lia.
Qed.

Lemma valid_date_bounds (x : date) :
  valid_date x = true ->
  1 <= year x <= 9999 /\ 1 <= Calendar.month x <= 12 /\ 1 <= day x <= 31.
Proof.
  intro H. apply valid_ymd_bounds in H. destruct H as (Hy & Hm & Hd).
  pose proof (@days_in_month_range (year x) _ Hm). lia.
Qed.

Lemma fromisoformat_parts (y m d : Z) :
  date_fromisoformat (zpad 4 y ++ "-" ++ zpad 2 m ++ "-" ++ zpad 2 d)
  = match digits_val 0 (zpad 4 y), digits_val 0 (zpad 2 m), digits_val 0 (zpad 2 d) with
    | Some y', Some m', Some d' => mk_date y' m' d'
    | _, _, _ => None
    end.
Proof. reflexivity. Qed.

(** [fromisoformat] undoes [isoformat]. *)
Lemma date_isoformat_roundtrip (x : date) :
  valid_date x = true -> date_fromisoformat (date_isoformat x) = Some x.
Proof.
  intro H. pose proof (valid_date_bounds _ H) as (Hy & Hm & Hd).
  unfold date_isoformat. rewrite fromisoformat_parts.
  rewrite !digits_val_zpad0 by (cbn; lia).
  unfold mk_date. unfold valid_date in H. rewrite H. destruct x; reflexivity.
Qed.

Lemma lex_assoc (a b c : comparison) : lex (lex a b) c = lex a (lex b c).
Proof. destruct a; reflexivity. Qed.

Lemma lex_Eq_r (a : comparison) : lex a Eq = a.
Proof. destruct a; reflexivity. Qed.

Lemma compare_lit (c : ascii) (s t : string) :
  String.compare (String c s) (String c t) = String.compare s t.
Proof. cbn [String.compare]. rewrite ascii_compare_refl. reflexivity. Qed.

Lemma date_compare_lex (a b : date) :
  date_compare a b
  = lex (year a ?= year b) (lex (Calendar.month a ?= Calendar.month b) (day a ?= day b)).
Proof.
  unfold date_compare.
  destruct (year a ?= year b); cbn [lex]; try reflexivity.
  destruct (Calendar.month a ?= Calendar.month b); reflexivity.
Qed.

(** ISO dates compare as text the way the dates compare. *)
Lemma compare_date_isoformat (a b : date) (s t : string) :
  valid_date a = true -> valid_date b = true ->
  String.compare (date_isoformat a ++ s) (date_isoformat b ++ t)
  = lex (date_compare a b) (String.compare s t).
Proof.
  intros Ha Hb.
  pose proof (valid_date_bounds _ Ha) as (Hya & Hma & Hda).
  pose proof (valid_date_bounds _ Hb) as (Hyb & Hmb & Hdb).
  unfold date_isoformat. rewrite !append_assoc.
  rewrite compare_zpad by (cbn; lia). cbn [append]. rewrite compare_lit.
  rewrite compare_zpad by (cbn; lia). cbn [append]. rewrite compare_lit.
  rewrite compare_zpad by (cbn; lia).
  rewrite date_compare_lex, !lex_assoc. reflexivity.
Qed.

Lemma compare_fraction (a b : Z) :
  0 <= a < 1000000 -> 0 <= b < 1000000 ->
  String.compare (if a =? 0 then "" else "." ++ zpad 6 a)
                 (if b =? 0 then "" else "." ++ zpad 6 b) = (a ?= b).
Proof.
  intros Ha Hb.
  destruct (Z.eqb_spec a 0) as [->|Na]; destruct (Z.eqb_spec b 0) as [->|Nb].
  - reflexivity.
  - cbn [append String.compare]. symmetry. apply Z.compare_lt_iff. lia.
  - cbn [append String.compare]. symmetry. apply Z.compare_gt_iff. lia.
  - cbn [append]. rewrite compare_lit.
    rewrite <- (append_nil_r (zpad 6 a)), <- (append_nil_r (zpad 6 b)).
    rewrite compare_zpad by (cbn; lia). cbn [String.compare]. apply lex_Eq_r.
Qed.

Lemma valid_datetime_bounds (t : datetime) :
  valid_datetime t = true ->
  valid_date (dt_date t) = true /\ 0 <= hour t < 24 /\ 0 <= minute t < 60
  /\ 0 <= second t < 60 /\ 0 <= microsecond t < 1000000.
Proof.
  unfold valid_datetime. remember (valid_date (dt_date t)) as v eqn:E. intro H.
  repeat (apply andb_prop in H; let H' := fresh in destruct H as [H H']).
  repeat match goal with
         | H : (_ <=? _) = true |- _ => apply Z.leb_le in H
         | H : (_ <? _) = true |- _ => apply Z.ltb_lt in H
         end.
  repeat split; try assumption; lia.
Qed.

(** ISO timestamps compare as text the way the timestamps compare. *)
Lemma compare_datetime_isoformat (a b : datetime) :
  valid_datetime a = true -> valid_datetime b = true ->
  String.compare (datetime_isoformat a) (datetime_isoformat b) = datetime_compare a b.
Proof.
  intros Ha Hb.
  pose proof (valid_datetime_bounds _ Ha) as (Da & Hha & Hma & Hsa & Hua).
  pose proof (valid_datetime_bounds _ Hb) as (Db & Hhb & Hmb & Hsb & Hub).
  unfold datetime_isoformat, datetime_compare.
  rewrite compare_date_isoformat by assumption. cbn [append]. rewrite compare_lit.
  rewrite compare_zpad by (cbn; lia). cbn [append]. rewrite compare_lit.
  rewrite compare_zpad by (cbn; lia). cbn [append]. rewrite compare_lit.
  rewrite compare_zpad by (cbn; lia).
  rewrite compare_fraction by assumption. reflexivity.
Qed.

(** ** The order of sort keys *)

Lemma string_compare_refl (s : string) : String.compare s s = Eq.
Proof.
  induction s as [|c s IH]; cbn [String.compare]; [reflexivity|].
  now rewrite ascii_compare_refl.
Qed.

Lemma string_compare_lt_trans : forall a b c : string,
  String.compare a b = Lt -> String.compare b c = Lt -> String.compare a c = Lt.
Proof.
  induction a as [|x a IH]; intros [|y b] [|z c]; cbn [String.compare];
    try discriminate; try reflexivity.
  unfold Ascii.compare.
  destruct (N.compare_spec (N_of_ascii x) (N_of_ascii y)) as [E1|L1|G1]; try discriminate;
    destruct (N.compare_spec (N_of_ascii y) (N_of_ascii z)) as [E2|L2|G2]; try discriminate;
    intros H1 H2.
  - rewrite E1, E2, N.compare_refl. eauto.
  - rewrite E1. apply N.compare_lt_iff in L2. now rewrite L2.
  - rewrite <- E2. apply N.compare_lt_iff in L1. now rewrite L1.
  - assert (N_of_ascii x < N_of_ascii z)%N as L by lia.
    apply N.compare_lt_iff in L. now rewrite L.
Qed.

Lemma key_compare_eq (a b : string * string) : key_compare a b = Eq -> a = b.
Proof.
  unfold key_compare. destruct a as [a1 a2], b as [b1 b2]; cbn [fst snd].
  destruct (String.compare a1 b1) eqn:E; try discriminate.
  intro H. apply String.compare_eq_iff in E, H. now subst.
Qed.

Lemma key_compare_antisym (a b : string * string) :
  key_compare a b = CompOpp (key_compare b a).
Proof.
  unfold key_compare. rewrite (String.compare_antisym (fst b) (fst a)).
  destruct (String.compare (fst a) (fst b)); cbn [CompOpp]; try reflexivity.
  apply String.compare_antisym.
Qed.

Lemma key_compare_lt_trans (a b c : string * string) :
  key_compare a b = Lt -> key_compare b c = Lt -> key_compare a c = Lt.
Proof.
  unfold key_compare.
  destruct (String.compare (fst a) (fst b)) eqn:E1; try discriminate;
    destruct (String.compare (fst b) (fst c)) eqn:E2; try discriminate; intros H1 H2.
  - apply String.compare_eq_iff in E1, E2. rewrite E1, E2, string_compare_refl.
    eapply string_compare_lt_trans; eassumption.
  - apply String.compare_eq_iff in E1. now rewrite E1, E2.
  - apply String.compare_eq_iff in E2. now rewrite <- E2, E1.
  - now rewrite (string_compare_lt_trans _ _ _ E1 E2).
Qed.

Lemma key_ltb_irrefl (a : string * string) : key_ltb a a = false.
Proof.
  unfold key_ltb, key_compare. now rewrite !string_compare_refl.
Qed.

(** "Not below" is transitive, because the order of keys is total. *)
Lemma key_not_ltb_trans (a b c : string * string) :
  key_ltb a b = false -> key_ltb b c = false -> key_ltb a c = false.
Proof.
  unfold key_ltb. intros H1 H2.
  destruct (key_compare a c) eqn:E; try reflexivity. exfalso.
  destruct (key_compare a b) eqn:E1; try discriminate.
  - apply key_compare_eq in E1. subst b. rewrite E in H2. discriminate.
  - destruct (key_compare b c) eqn:E2; try discriminate.
    + apply key_compare_eq in E2. subst c. rewrite E1 in E. discriminate.
    + rewrite key_compare_antisym in E1, E2.
      destruct (key_compare b a) eqn:F1; try discriminate.
      destruct (key_compare c b) eqn:F2; try discriminate.
      pose proof (key_compare_lt_trans _ _ _ F2 F1) as F.
      rewrite key_compare_antisym, F in E. discriminate.
Qed.

Lemma key_ltb_asym (a b : string * string) : key_ltb a b = true -> key_ltb b a = false.
Proof.
  unfold key_ltb. rewrite (key_compare_antisym b a).
  destruct (key_compare a b); cbn; congruence.
Qed.

(** ** The stable descending sort *)

Section Sorting.

Context {A : Type} (key : A -> string * string).

Lemma insert_desc_perm (x : A) (l : list A) : Permutation (insert_desc key x l) (x :: l).
Proof.
  induction l as [|y r IH]; cbn [insert_desc]; [reflexivity|].
  destruct (key_ltb (key x) (key y)); [|reflexivity].
  rewrite IH. apply perm_swap.
Qed.

Lemma sort_desc_perm (l : list A) : Permutation (sort_desc key l) l.
Proof.
  induction l as [|x l IH]; cbn [sort_desc fold_right]; [reflexivity|].
  fold (sort_desc key l). rewrite insert_desc_perm. now constructor.
Qed.

Lemma insert_desc_descending (x : A) (l : list A) :
  descending key l -> descending key (insert_desc key x l).
Proof.
  unfold descending. induction l as [|y r IH]; intro S; cbn [insert_desc].
  - repeat constructor.
  - apply StronglySorted_inv in S. destruct S as [Sr Fy].
    destruct (key_ltb (key x) (key y)) eqn:E.
    + constructor; [auto|].
      eapply Permutation_Forall; [symmetry; apply insert_desc_perm|].
      constructor; [now apply key_ltb_asym | assumption].
    + constructor; [constructor; assumption|].
      constructor; [assumption|].
      eapply Forall_impl; [|exact Fy]. cbn beta. intros z Hz.
      eapply key_not_ltb_trans; eassumption.
Qed.

Lemma sort_desc_descending (l : list A) : descending key (sort_desc key l).
Proof.
  induction l as [|x l IH]; cbn [sort_desc fold_right]; [constructor|].
  now apply insert_desc_descending.
Qed.

Lemma descending_nth (l : list A) : forall i j a b,
  descending key l -> (i < j)%nat ->
  nth_error l i = Some a -> nth_error l j = Some b ->
  key_ltb (key a) (key b) = false.
Proof.
  unfold descending. induction l as [|x l IH]; intros i j a b S L Hi Hj.
  - destruct i; discriminate.
  - apply StronglySorted_inv in S. destruct S as [Sl Fx].
    destruct j as [|j]; [exfalso; lia|]. cbn [nth_error] in Hj.
    destruct i as [|i]; cbn [nth_error] in Hi.
    + injection Hi as ->. rewrite Forall_forall in Fx. apply Fx.
      eapply nth_error_In; eassumption.
    + apply (IH i j a b); try assumption. lia.
Qed.

End Sorting.

(** ** The dictionary of balances *)

Lemma dict_set_fresh {V} (k : string) (v : V) (d : dict V) :
  ~ In k (map fst d) -> dict_set k v d = d ++ [(k, v)].
Proof.
  induction d as [|[k' v'] d IH]; cbn [dict_set map fst In app]; intro N; [reflexivity|].
  destruct (String.eqb_spec k' k) as [E|_]; [tauto|].
  rewrite IH by tauto. reflexivity.
Qed.

Lemma fold_account_step (all_txs : list (item TransactionFields))
  (entry := fun acc : item AccountIn =>
     (id acc, {| ab_name := ai_name (fields acc); ab_color := ai_color (fields acc);
                 ab_balance := round2 (account_balance all_txs acc) |}))
  (l : list (item AccountIn)) : forall d : dict AccountBalance,
  NoDup (map fst d ++ map id l) ->
  fold_left (account_step all_txs) l d = d ++ map entry l.
Proof.
  induction l as [|acc l IH]; intros d N; cbn [fold_left map].
  - now rewrite app_nil_r.
  - unfold account_step at 2. rewrite dict_set_fresh.
    + rewrite IH.
      * rewrite <- app_assoc. reflexivity.
      * rewrite map_app, <- app_assoc. exact N.
    + cbn [map] in N. apply NoDup_remove_2 in N. intro I. apply N.
      apply in_or_app. now left.
Qed.

Lemma dict_get_map {A V} (key : A -> string) (f : A -> V) (l : list A) (a : A) :
  NoDup (map key l) -> In a l ->
  dict_get (key a) (map (fun x => (key x, f x)) l) = Some (f a).
Proof.
  induction l as [|x l IH]; cbn [map In dict_get]; intros N I; [tauto|].
  apply NoDup_cons_iff in N. destruct N as [Nx N].
  destruct I as [->|I].
  - now rewrite String.eqb_refl.
  - destruct (String.eqb_spec (key x) (key a)) as [E|_].
    + exfalso. apply Nx. rewrite E. now apply in_map.
    + auto.
Qed.

(** ** Identifiers as text *)

Lemma hex_byte (c : ascii) :
  let n := Z.of_N (N_of_ascii c) in
  is_space (hex_char (n / 16)) = false
  /\ hex_val (hex_char (n / 16)) = Some (n / 16)
  /\ hex_val (hex_char (n mod 16)) = Some (n mod 16)
  /\ ascii_of_N (Z.to_N (16 * (n / 16) + n mod 16)) = c.
Proof.
  destruct c as [[] [] [] [] [] [] [] []]; repeat split; reflexivity.
Qed.

(** [bytes.fromhex] reads back what [str] wrote. *)
Lemma fromhex_oid_str (b : bytes) : fromhex (oid_str b) = Some b.
Proof.
  induction b as [|c b IH]; cbn [oid_str fromhex]; [reflexivity|].
  destruct (hex_byte c) as (S & H1 & H2 & E).
  rewrite S, H1, H2, IH, E. reflexivity.
Qed.

Lemma oid_str_inj (a b : bytes) : oid_str a = oid_str b -> a = b.
Proof.
  intro H. apply (f_equal fromhex) in H. rewrite !fromhex_oid_str in H. congruence.
Qed.

Lemma NoDup_oid_str {P} (l : list (stored P)) :
  NoDup (map doc_id l) -> NoDup (map (fun d => oid_str (doc_id d)) l).
Proof.
  induction l as [|d l IH]; cbn [map]; intro N; [constructor|].
  apply NoDup_cons_iff in N. destruct N as [Nd N]. constructor; [|auto].
  intro I. apply Nd. apply in_map_iff in I. destruct I as (x & E & I).
  apply oid_str_inj in E. rewrite <- E. now apply in_map.
Qed.

(** ** The month filter *)

Lemma strptime_valid (s : string) (x : date) :
  strptime_ymd s = Some x -> valid_date x = true.
Proof.
  unfold strptime_ymd.
  destruct (match_ymd s) as [|[[[y m] d] [|c r]] l]; try discriminate.
  unfold mk_date. destruct (valid_ymd y m d) eqn:V; [|discriminate].
  intros [= <-]. exact V.
Qed.

Lemma mk_date_some (y m d : Z) (x : date) :
  mk_date y m d = Some x -> x = Date y m d /\ valid_date x = true.
Proof.
  unfold mk_date. destruct (valid_ymd y m d) eqn:V; [|discriminate].
  intros [= <-]. split; [reflexivity | exact V].
Qed.

(** Whatever the token, the two dates that [month_range] returns are dates,
    the first before the second; and an empty token returns nothing. *)
Lemma month_range_dates (tok : string) (start next_month : date) :
  month_range tok = Some (start, next_month) ->
  valid_date start = true /\ valid_date next_month = true
  /\ date_compare start next_month = Lt.
Proof.
  unfold month_range.
  destruct (strptime_ymd (tok ++ "-01")) as [s|] eqn:S; [|discriminate].
  apply strptime_valid in S.
  destruct (Calendar.month s =? 12) eqn:M.
  - destruct (mk_date (year s + 1) 1 1) as [n|] eqn:D; [|discriminate].
    apply mk_date_some in D. destruct D as [-> V]. intros [= <- <-].
    repeat split; try assumption.
    unfold date_compare. cbn [year Calendar.month day].
    replace (year s ?= year s + 1) with Lt; [reflexivity|].
    symmetry. apply Z.compare_lt_iff. lia.
  - destruct (mk_date (year s) (Calendar.month s + 1) 1) as [n|] eqn:D; [|discriminate].
    apply mk_date_some in D. destruct D as [-> V]. intros [= <- <-].
    repeat split; try assumption.
    unfold date_compare. cbn [year Calendar.month day].
    rewrite Z.compare_refl.
    replace (Calendar.month s ?= Calendar.month s + 1) with Lt; [reflexivity|].
    symmetry. apply Z.compare_lt_iff. lia.
Qed.

Lemma month_range_truthy (tok : string) (r : date * date) :
  month_range tok = Some r -> truthy (Some tok) = Some tok.
Proof. destruct tok; [intro E; vm_compute in E; discriminate E | reflexivity]. Qed.

Lemma date_compare_refl (x : date) : date_compare x x = Eq.
Proof. unfold date_compare. now rewrite !Z.compare_refl. Qed.

Lemma in_month_isoformat (start next_month d : date) :
  valid_date d = true ->
  in_month start next_month (date_isoformat d)
  = Some (date_leb start d && date_ltb d next_month).
Proof.
  intro H. unfold in_month. now rewrite date_isoformat_roundtrip.
Qed.

Lemma filter_raising_in_month (start next_month : date) (txs : list (stored TransactionIn)) :
  forallb well_formed txs = true ->
  filter_raising (fun t => in_month start next_month (tf_date (fields t)))
                 (map (serialize transaction_fields) txs)
  = Some (map (serialize transaction_fields) (filter (dated_within start next_month) txs)).
Proof.
  induction txs as [|t txs IH]; cbn [forallb map filter filter_raising]; intro H; [reflexivity|].
  apply andb_prop in H. destruct H as [Wt W].
  unfold well_formed in Wt. apply andb_prop in Wt. destruct Wt as [Vd _].
  cbn [serialize fields transaction_fields tf_date].
  rewrite in_month_isoformat by assumption. rewrite (IH W).
  change (date_leb start (ti_date (doc_fields t)) && date_ltb (ti_date (doc_fields t)) next_month)
    with (dated_within start next_month t).
  destruct (dated_within start next_month t); reflexivity.
Qed.

Lemma filter_all {A} (l : list A) : filter (fun _ => true) l = l.
Proof. induction l as [|x l IH]; cbn [filter]; congruence. Qed.

(** The items after the filter, when the filter does not raise. *)
Lemma month_filter_requested (month : option string) (st : store) :
  forallb well_formed (transaction st) = true ->
  (forall m, truthy month = Some m -> month_range m <> None) ->
  month_filter month (map (serialize transaction_fields) (transaction st))
  = Return (map (serialize transaction_fields) (filter (requested month) (transaction st))).
Proof.
  intros W M. unfold month_filter, requested.
  destruct (truthy month) as [m|] eqn:T.
  - specialize (M m eq_refl). destruct (month_range m) as [[start next_month]|]; [|congruence].
    rewrite filter_raising_in_month by assumption. reflexivity.
  - now rewrite filter_all.
Qed.

Lemma month_filter_raises (tok : string) (items : list (item TransactionFields)) :
  query_pattern tok = true -> month_range tok = None ->
  month_filter (Some tok) items = Unhandled ValueError.
Proof.
  intros P E. unfold month_filter. rewrite query_pattern_nonempty by assumption.
  now rewrite E.
Qed.

(** ** [month_range] *)

Lemma month_range_result_some (y m : Z) :
  1 <= y -> 1 <= m <= 12 -> ~ (y = 9999 /\ m = 12) ->
  month_range_result y m
  = Some (Date y m 1, if m =? 12 then Date (y + 1) 1 1 else Date y (m + 1) 1).
Proof.
  intros Hy Hm N. unfold month_range_result.
  replace (1 <=? y) with true by (symmetry; apply Z.leb_le; lia).
  replace (1 <=? m) with true by (symmetry; apply Z.leb_le; lia).
  replace (m <=? 12) with true by (symmetry; apply Z.leb_le; lia).
  replace ((y =? 9999) && (m =? 12)) with false; [reflexivity|].
  symmetry. apply andb_false_iff.
  destruct (Z.eqb_spec y 9999); destruct (Z.eqb_spec m 12); tauto.
Qed.

(** C4 (amended).  For every token [YYYY-MM] of the query pattern whose year is
    at least 0001 and whose month is 01..12, 9999-12 excepted, [month_range]
    returns the first day of that month and the first day of the following
    month; the two dates are as many days apart as the month has days (28, 29,
    30 or 31), and for December the second date is 1 January of the next
    year. *)
Theorem month_range_first_days (tok : string) :
  month_pattern tok = true ->
  1 <= token_year tok ->
  1 <= token_month tok <= 12 ->
  ~ (token_year tok = 9999 /\ token_month tok = 12) ->
  exists start next_month,
    month_range tok = Some (start, next_month)
    /\ start = Date (token_year tok) (token_month tok) 1
    /\ next_month = (if token_month tok =? 12
                     then Date (token_year tok + 1) 1 1
                     else Date (token_year tok) (token_month tok + 1) 1)
    /\ date_sub next_month start = days_in_month (token_year tok) (token_month tok)
    /\ In (days_in_month (token_year tok) (token_month tok)) [28; 29; 30; 31].
Proof.
  intros P Hy Hm N. rewrite (month_range_spec _ P), month_range_result_some by assumption.
  eexists _, _. split; [reflexivity|]. split; [reflexivity|].
  split; [reflexivity|]. split.
  - now apply month_length.
  - pose proof (@days_in_month_range (token_year tok) _ Hm) as R.
    cbn [In]. lia.
Qed.

Lemma month_range_first_days_witness :
  month_pattern "2024-02" = true
  /\ exists start next_month,
       month_range "2024-02" = Some (start, next_month)
       /\ start = Date 2024 2 1 /\ next_month = Date 2024 3 1
       /\ date_sub next_month start = 29.
Proof.
  split; [reflexivity|].
  destruct (month_range_first_days "2024-02") as (s & n & E & Es & En & D & _).
  - reflexivity.
  - vm_compute; discriminate.
  - split; vm_compute; discriminate.
  - vm_compute. intros [H _]. discriminate H.
  - exists s, n. repeat split; assumption.
Defined.

(** C4, as stated, fails at December 9999: the month component is valid, and
    [month_range] raises, because [date(10000, 1, 1)] is no date.  It fails in
    year 0000 as well, which is no year of a [date]. *)
Lemma month_range_december_9999 :
  (month_pattern "9999-12" = true
   /\ token_month "9999-12" = 12
   /\ month_range "9999-12" = None)
  /\ (month_pattern "0000-01" = true
      /\ token_month "0000-01" = 1
      /\ month_range "0000-01" = None).
Proof. repeat split; reflexivity. Qed.

Lemma summary_after_filter (month : option string) (st : store)
  (txs : list (item TransactionFields)) :
  month_filter month (map (serialize transaction_fields) (transaction st)) = Return txs ->
  exists out, summary month st = Return out
    /\ transactions out = firstn 50 txs
    /\ total_income out
       = round2 (sum_amounts (fun t => flow_eqb (tf_type (fields t)) income) txs)
    /\ total_expense out
       = round2 (sum_amounts (fun t => flow_eqb (tf_type (fields t)) expense) txs)
    /\ budgets out
       = match truthy month with
         | Some m =>
             map (budget_entry m txs)
                 (filter (fun b => String.eqb (bi_month (fields b)) m)
                         (map (serialize same) (budget st)))
         | None => []
         end
    /\ accounts out
       = fold_left (account_step (map (serialize transaction_fields) (transaction st)))
                   (map (serialize same) (account st)) []
    /\ overall_balance out = round2 (py_sum (map ab_balance (dict_values (accounts out)))).
Proof.
  intro E. unfold summary, get_documents. rewrite E. cbn [bind].
  eexists. split; [reflexivity|]. cbn. repeat split; reflexivity.
Qed.

Lemma summary_raises (tok : string) (st : store) :
  query_pattern tok = true -> month_range tok = None ->
  summary (Some tok) st = Unhandled ValueError.
Proof.
  intros P E. unfold summary. rewrite month_filter_raises by assumption. reflexivity.
Qed.

Lemma list_transactions_raises (tok : string) (st : store) :
  query_pattern tok = true -> month_range tok = None ->
  list_transactions (Some tok) st = Unhandled ValueError.
Proof.
  intros P E. unfold list_transactions. rewrite month_filter_raises by assumption. reflexivity.
Qed.

(** C10 (amended).  On the tokens of the query pattern, [month_range] returns
    exactly when the four digits denote a year from 0001 on, the month part is
    written in ASCII digits and is 01..12, and the token is not 9999-12.  On
    every other token of the pattern it raises: month 00 or above 12, year
    0000, 9999-12, a month part in other decimal digits, a line feed at the
    end; then the listing and the summary end in an unhandled [ValueError],
    not in an [HTTPException].  For a token in ASCII digits the year and the
    month are the numbers it shows. *)
Theorem month_range_partial (tok : string) :
  query_pattern tok = true ->
  (forall m, pattern_month tok = Some m -> 1 <= pattern_year tok -> 1 <= m <= 12 ->
             ~ (pattern_year tok = 9999 /\ m = 12) ->
   month_range tok
   = Some (Date (pattern_year tok) m 1,
           if m =? 12 then Date (pattern_year tok + 1) 1 1
           else Date (pattern_year tok) (m + 1) 1))
  /\ (~ (exists m, pattern_month tok = Some m /\ 1 <= pattern_year tok /\ 1 <= m <= 12
                   /\ ~ (pattern_year tok = 9999 /\ m = 12)) ->
      month_range tok = None
      /\ forall st, list_transactions (Some tok) st = Unhandled ValueError
                    /\ summary (Some tok) st = Unhandled ValueError)
  /\ (month_pattern tok = true ->
      pattern_year tok = token_year tok /\ pattern_month tok = Some (token_month tok)).
Proof.
  intro P. split; [|split].
  - intros m M Hy Hm N.
    now rewrite (month_range_pattern _ P), M, month_range_result_some by assumption.
  - intro N.
    assert (month_range tok = None) as E.
    { rewrite (month_range_pattern _ P).
      destruct (pattern_month tok) as [m|]; [|reflexivity].
      unfold month_range_result.
      destruct (Z.leb_spec 1 (pattern_year tok)); destruct (Z.leb_spec 1 m);
        destruct (Z.leb_spec m 12);
        destruct (Z.eqb_spec (pattern_year tok) 9999);
        destruct (Z.eqb_spec m 12);
        cbn [andb negb]; try reflexivity; exfalso; apply N; exists m;
        (split; [reflexivity | lia]). }
    split; [assumption|]. intro st. split.
    + now apply list_transactions_raises.
    + now apply summary_raises.
  - intro A. now apply month_pattern_query.
Qed.

Lemma month_range_partial_witness :
  (query_pattern "2024-13" = true
   /\ month_range "2024-13" = None
   /\ list_transactions (Some "2024-13") (Store [] [] [] []) = Unhandled ValueError
   /\ summary (Some "2024-13") (Store [] [] [] []) = Unhandled ValueError)
  /\ (query_pattern (text [1634; 1632; 1634; 1636] ++ "-03")%string = true
      /\ month_range (text [1634; 1632; 1634; 1636] ++ "-03")%string
         = Some (Date 2024 3 1, Date 2024 4 1)).
Proof.
  split.
  - split; [reflexivity|].
    destruct (month_range_partial "2024-13" eq_refl) as (_ & H & _).
    destruct H as [E F].
    + intros (m & M & _ & Hm & _). vm_compute in M. injection M as <-. lia.
    + split; [exact E|]. exact (F (Store [] [] [] [])).
  - split; [reflexivity|].
    destruct (month_range_partial (text [1634; 1632; 1634; 1636] ++ "-03")%string eq_refl)
      as (H & _).
    apply (H 3); [reflexivity | vm_compute; discriminate | lia |].
    intros [E _]. vm_compute in E. discriminate E.
Defined.

(** C10, as stated, fails at year 0000: the month part 05 is between 01 and
    12, and [month_range] raises.  So it does for December 9999, and for a
    month part 03 that is written in full-width digits (U+FF10, U+FF13). *)
Lemma month_range_year_0000 :
  (month_pattern "0000-05" = true
   /\ query_pattern "0000-05" = true
   /\ token_month "0000-05" = 5
   /\ month_range "0000-05" = None
   /\ list_transactions (Some "0000-05") Sample.ledger = Unhandled ValueError)
  /\ (month_pattern "9999-12" = true
      /\ query_pattern "9999-12" = true
      /\ token_month "9999-12" = 12
      /\ month_range "9999-12" = None
      /\ summary (Some "9999-12") Sample.ledger = Unhandled ValueError)
  /\ (query_pattern ("2024-" ++ text [65296; 65299])%string = true
      /\ read_decimals 2 0 (text [65296; 65299]) = Some (3, "")
      /\ month_range ("2024-" ++ text [65296; 65299])%string = None
      /\ summary (Some ("2024-" ++ text [65296; 65299])%string) Sample.ledger
         = Unhandled ValueError).
Proof. repeat split; reflexivity. Qed.

(** ** Membership in a month *)

(** C5.  For a month token and a date, the test [in_month] holds exactly when
    [start <= date < next_month]: the first day of the month is a member, the
    first day of the next month is not; the listing and the summary both keep
    exactly the transactions that pass this test. *)
Theorem in_month_half_open (tok : string) (start next_month d : date) :
  month_range tok = Some (start, next_month) ->
  valid_date d = true ->
  in_month start next_month (date_isoformat d)
    = Some (date_leb start d && date_ltb d next_month)
  /\ in_month start next_month (date_isoformat start) = Some true
  /\ in_month start next_month (date_isoformat next_month) = Some false
  /\ forall st, forallb well_formed (transaction st) = true ->
       let kept := map (serialize transaction_fields)
                       (filter (dated_within start next_month) (transaction st)) in
       list_transactions (Some tok) st = Return (sort_desc sort_key kept)
       /\ exists out, summary (Some tok) st = Return out
            /\ transactions out = firstn 50 kept
            /\ total_income out
               = round2 (sum_amounts (fun t => flow_eqb (tf_type (fields t)) income) kept)
            /\ total_expense out
               = round2 (sum_amounts (fun t => flow_eqb (tf_type (fields t)) expense) kept).
Proof.
  intros E V. destruct (month_range_dates _ _ _ E) as (Vs & Vn & L).
  split; [now apply in_month_isoformat|].
  split; [|split].
  - rewrite in_month_isoformat by assumption.
    unfold date_leb, date_ltb. now rewrite date_compare_refl, L.
  - rewrite in_month_isoformat by assumption.
    unfold date_leb, date_ltb. now rewrite date_compare_refl, L.
  - intros st W kept.
    assert (month_filter (Some tok) (map (serialize transaction_fields) (transaction st))
            = Return kept) as F.
    { unfold month_filter. rewrite (month_range_truthy _ _ E), E.
      rewrite filter_raising_in_month by assumption. reflexivity. }
    split.
    + unfold list_transactions, get_documents. rewrite F. reflexivity.
    + destruct (summary_after_filter _ _ _ F) as (out & S & T & I & X & _).
      exists out. repeat split; assumption.
Qed.

Lemma in_month_half_open_witness :
  in_month (Date 2024 3 1) (Date 2024 4 1) (date_isoformat (Date 2024 3 31)) = Some true
  /\ in_month (Date 2024 3 1) (Date 2024 4 1) "2024-03-01" = Some true
  /\ in_month (Date 2024 3 1) (Date 2024 4 1) "2024-04-01" = Some false.
Proof.
  destruct (@in_month_half_open "2024-03" (Date 2024 3 1) (Date 2024 4 1) (Date 2024 3 31))
    as (A & B & C & _); try reflexivity.
  repeat split; assumption.
Defined.

(** ** Order of the listing *)

Lemma key_compare_recency (a b : stored TransactionIn) :
  well_formed a = true -> well_formed b = true ->
  key_compare (sort_key (serialize transaction_fields a))
              (sort_key (serialize transaction_fields b))
  = recency_compare a b.
Proof.
  unfold well_formed. intros Wa Wb.
  apply andb_prop in Wa, Wb. destruct Wa as [Da Ta], Wb as [Db Tb].
  unfold key_compare, sort_key, recency_compare.
  cbn [serialize fields created_at transaction_fields tf_date fst snd].
  rewrite <- (append_nil_r (date_isoformat (ti_date (doc_fields a)))).
  rewrite <- (append_nil_r (date_isoformat (ti_date (doc_fields b)))).
  rewrite compare_date_isoformat by assumption.
  cbn [String.compare]. rewrite lex_Eq_r.
  rewrite compare_datetime_isoformat by assumption.
  unfold lex. destruct (date_compare _ _); reflexivity.
Qed.

Lemma key_compare_refl (k : string * string) : key_compare k k = Eq.
Proof. unfold key_compare. now rewrite !string_compare_refl. Qed.

(** C9.  With or without a month filter, the listing is in descending order of
    (date, creation timestamp): of two returned transactions, the one that
    comes later in that order stands first.  The listing holds the requested
    transactions, each once. *)
Theorem list_transactions_descending (month : option string) (st : store) :
  forallb well_formed (transaction st) = true ->
  (forall m, truthy month = Some m -> month_range m <> None) ->
  exists items,
    list_transactions month st = Return items
    /\ Permutation items
         (map (serialize transaction_fields) (filter (requested month) (transaction st)))
    /\ forall i j a b,
         In a (transaction st) -> In b (transaction st) ->
         nth_error items i = Some (serialize transaction_fields a) ->
         nth_error items j = Some (serialize transaction_fields b) ->
         recency_compare a b = Gt ->
         (i < j)%nat.
Proof.
  intros W M. unfold list_transactions, get_documents.
  rewrite month_filter_requested by assumption. cbn [bind].
  eexists. split; [reflexivity|]. split; [apply sort_desc_perm|].
  intros i j a b Ia Ib Hi Hj R.
  rewrite forallb_forall in W.
  pose proof (key_compare_recency a b (W _ Ia) (W _ Ib)) as K. rewrite R in K.
  destruct (Nat.lt_trichotomy i j) as [L|[E|G]]; [assumption| |]; exfalso.
  - subst j.
    assert (serialize transaction_fields a = serialize transaction_fields b) as S by congruence.
    rewrite S, key_compare_refl in K. discriminate.
  - pose proof (descending_nth sort_key _ j i _ _ (sort_desc_descending sort_key _) G Hj Hi) as D.
    unfold key_ltb in D. rewrite key_compare_antisym, K in D. discriminate.
Qed.

Lemma list_transactions_descending_witness :
  exists items,
    list_transactions (Some "2024-03") Sample.ledger = Return items
    /\ forall i j,
         nth_error items i = Some (serialize transaction_fields Sample.T3) ->
         nth_error items j = Some (serialize transaction_fields Sample.T2) ->
         (i < j)%nat.
Proof.
  destruct (list_transactions_descending (Some "2024-03") Sample.ledger)
    as (items & L & _ & O).
  - reflexivity.
  - intros m E. injection E as <-. discriminate.
  - exists items. split; [exact L|]. intros i j Hi Hj.
    apply (O i j Sample.T3 Sample.T2); try assumption.
    + right. right. left. reflexivity.
    + right. left. reflexivity.
    + reflexivity.
Defined.

(** ** The summary *)

Lemma summary_returns (month : option string) (st : store) :
  forallb well_formed (transaction st) = true ->
  (forall m, truthy month = Some m -> month_range m <> None) ->
  exists out, summary month st = Return out
    /\ transactions out
       = firstn 50 (map (serialize transaction_fields)
                        (filter (requested month) (transaction st)))
    /\ budgets out
       = match truthy month with
         | Some m =>
             map (budget_entry m (map (serialize transaction_fields)
                                      (filter (requested month) (transaction st))))
                 (filter (fun b => String.eqb (bi_month (fields b)) m)
                         (map (serialize same) (budget st)))
         | None => []
         end
    /\ accounts out
       = fold_left (account_step (map (serialize transaction_fields) (transaction st)))
                   (map (serialize same) (account st)) []
    /\ overall_balance out = round2 (py_sum (map ab_balance (dict_values (accounts out)))).
Proof.
  intros W M.
  destruct (summary_after_filter _ _ _ (month_filter_requested month st W M))
    as (out & S & T & _ & _ & B & A & O).
  exists out. repeat split; assumption.
Qed.

(** C1: the code at a failing input.  The ledger holds T1 (15 March), T2 and
    T3 (16 March) and T4 (2 April), created in this order.  The summary lists
    them as the store does, oldest first, where the listing of section 4.5
    puts the most recent first. *)
Theorem summary_transactions_in_store_order :
  exists out items,
    summary None Sample.ledger = Return out
    /\ list_transactions None Sample.ledger = Return items
    /\ map id (transactions out)
       = map (fun t => oid_str (doc_id t)) [Sample.T1; Sample.T2; Sample.T3; Sample.T4]
    /\ map id (firstn 50 items)
       = map (fun t => oid_str (doc_id t)) [Sample.T4; Sample.T3; Sample.T2; Sample.T1].
Proof.
  eexists. eexists. split; [reflexivity|]. split; [reflexivity|].
  split; vm_compute; reflexivity.
Qed.

Lemma accounts_of_summary (st : store) :
  NoDup (map doc_id (account st)) ->
  fold_left (account_step (map (serialize transaction_fields) (transaction st)))
            (map (serialize same) (account st)) []
  = map (fun acc : item AccountIn =>
           (id acc,
            {| ab_name := ai_name (fields acc); ab_color := ai_color (fields acc);
               ab_balance :=
                 round2 (account_balance (map (serialize transaction_fields) (transaction st))
                                         acc) |}))
        (map (serialize same) (account st)).
Proof.
  intro N. rewrite fold_account_step; [reflexivity|].
  cbn [map app]. rewrite map_map. cbn [serialize id]. now apply NoDup_oid_str.
Qed.

Lemma running_balance_serialized (acc_id : string) (txs : list (stored TransactionIn)) :
  forall b0 : float,
  fold_left (balance_step acc_id) (map (serialize transaction_fields) txs) b0
  = running_balance acc_id b0 txs.
Proof.
  induction txs as [|t txs IH]; intro b0; cbn [map fold_left running_balance];
    [reflexivity|].
  rewrite IH. f_equal. unfold balance_step.
  cbn [serialize fields transaction_fields tf_account_id tf_type tf_amount].
  destruct (String.eqb _ _); [|reflexivity].
  destruct (ti_type (doc_fields t)); reflexivity.
Qed.

(** C2 (amended).  In every summary, with or without a month, the balance
    reported for an account is its running balance over all stored
    transactions, rounded to 2 decimal places: the code starts from the
    initial balance and goes through the transactions in store order, adding
    the amount of each income transaction that names the account and
    subtracting the amount of each expense transaction that names it, one
    float operation at a time. *)
Theorem account_balance_over_all_transactions
  (month : option string) (st : store) (acc : stored AccountIn) :
  forallb well_formed (transaction st) = true ->
  (forall m, truthy month = Some m -> month_range m <> None) ->
  NoDup (map doc_id (account st)) ->
  In acc (account st) ->
  exists out entry,
    summary month st = Return out
    /\ dict_get (oid_str (doc_id acc)) (accounts out) = Some entry
    /\ ab_name entry = ai_name (doc_fields acc)
    /\ ab_color entry = ai_color (doc_fields acc)
    /\ ab_balance entry
       = round2 (running_balance (oid_str (doc_id acc))
                                 (ai_initial_balance (doc_fields acc)) (transaction st)).
Proof.
  intros W M N I.
  destruct (summary_returns month st W M) as (out & S & _ & _ & A & _).
  rewrite accounts_of_summary in A by assumption.
  eexists out, _. split; [exact S|]. split.
  - rewrite A.
    apply (dict_get_map id
             (fun a : item AccountIn =>
                {| ab_name := ai_name (fields a); ab_color := ai_color (fields a);
                   ab_balance :=
                     round2 (account_balance
                               (map (serialize transaction_fields) (transaction st)) a) |})
             (map (serialize same) (account st)) (serialize same acc)).
    + rewrite map_map. cbn [serialize id]. now apply NoDup_oid_str.
    + now apply in_map.
  - cbn [ab_name ab_color ab_balance serialize fields same id].
    repeat split. unfold account_balance. cbn [id fields].
    now rewrite running_balance_serialized.
Qed.

Lemma account_balance_over_all_transactions_witness :
  exists out entry,
    summary (Some "2024-03") Sample.ledger = Return out
    /\ dict_get Sample.id_A (accounts out) = Some entry
    /\ ab_balance entry = Sample.q 57 1.
Proof.
  destruct (account_balance_over_all_transactions (Some "2024-03") Sample.ledger Sample.account_A)
    as (out & entry & S & G & _ & _ & B).
  - reflexivity.
  - intros m E. injection E as <-. discriminate.
  - repeat constructor; cbn; intuition discriminate.
  - left. reflexivity.
  - exists out, entry. split; [exact S|]. split; [exact G|].
    rewrite B. reflexivity.
Defined.

(** C2, as stated, fails for an account that starts at 0, earns 0.001, spends
    0.002 and earns 0.016: the summary reports 0.01, and the initial balance
    plus the sum of the incomes minus the sum of the expenses, rounded to 2
    decimals, is 0.02.  It fails as well when the account earns 1, earns
    10^17, spends 10^17 and earns 1: the summary reports 1.0, where the sums
    give 0.0 on floats and 2 when they are computed exactly. *)
Lemma account_balance_not_sum_of_sums :
  (exists out entry,
     summary None Sample.mills = Return out
     /\ dict_get Sample.id_A (accounts out) = Some entry
     /\ ab_balance entry = Sample.q 1 100
     /\ round2 (Sample.q 0 1
                + sum_amounts
                    (fun t => String.eqb (tf_account_id (fields t)) Sample.id_A
                              && flow_eqb (tf_type (fields t)) income)
                    (map (serialize transaction_fields) (transaction Sample.mills))
                - sum_amounts
                    (fun t => String.eqb (tf_account_id (fields t)) Sample.id_A
                              && flow_eqb (tf_type (fields t)) expense)
                    (map (serialize transaction_fields) (transaction Sample.mills)))%float
        = Sample.q 2 100
     /\ ab_balance entry <> Sample.q 2 100)
  /\ (exists out entry,
        summary None Sample.drift = Return out
        /\ dict_get Sample.id_A (accounts out) = Some entry
        /\ ab_balance entry = 1%float
        /\ round2 (Sample.q 0 1
                   + sum_amounts
                       (fun t => String.eqb (tf_account_id (fields t)) Sample.id_A
                                 && flow_eqb (tf_type (fields t)) income)
                       (map (serialize transaction_fields) (transaction Sample.drift))
                   - sum_amounts
                       (fun t => String.eqb (tf_account_id (fields t)) Sample.id_A
                                 && flow_eqb (tf_type (fields t)) expense)
                       (map (serialize transaction_fields) (transaction Sample.drift)))%float
           = 0%float
        /\ float_of_Z (0 + (1 + 100000000000000000 + 1) - 100000000000000000) = 2%float
        /\ ab_balance entry <> 0%float
        /\ ab_balance entry <> 2%float).
Proof.
  split.
  - eexists _, _. split; [reflexivity|]. split; [reflexivity|].
    split; [reflexivity|]. split; [reflexivity|].
    intro H; apply (f_equal Prim2SF) in H; vm_compute in H; discriminate H.
  - eexists _, _. split; [reflexivity|]. split; [reflexivity|].
    split; [reflexivity|]. split; [reflexivity|]. split; [reflexivity|].
    split; intro H; apply (f_equal Prim2SF) in H; vm_compute in H; discriminate H.
Qed.

(** C3 (amended).  In every summary, [overall_balance] is the sum of the
    balances as the summary reports them, each of them already rounded to 2
    decimals, and that sum is rounded to 2 decimals once more. *)
Theorem overall_balance_sums_reported_balances (month : option string) (st : store) :
  forallb well_formed (transaction st) = true ->
  (forall m, truthy month = Some m -> month_range m <> None) ->
  NoDup (map doc_id (account st)) ->
  exists out,
    summary month st = Return out
    /\ overall_balance out = round2 (py_sum (map ab_balance (dict_values (accounts out))))
    /\ overall_balance out
       = round2 (py_sum
           (map (fun acc =>
                   round2 (account_balance
                             (map (serialize transaction_fields) (transaction st))
                             (serialize same acc)))
                (account st))).
Proof.
  intros W M N.
  destruct (summary_returns month st W M) as (out & S & _ & _ & A & O).
  exists out. split; [exact S|]. split; [exact O|].
  rewrite O, A, accounts_of_summary by assumption.
  unfold dict_values. rewrite !map_map. reflexivity.
Qed.

Lemma overall_balance_sums_reported_balances_witness :
  exists out,
    summary (Some "2024-03") Sample.ledger = Return out
    /\ overall_balance out = Sample.q 57 1.
Proof.
  destruct (overall_balance_sums_reported_balances (Some "2024-03") Sample.ledger)
    as (out & S & _ & O).
  - reflexivity.
  - intros m E. injection E as <-. discriminate.
  - repeat constructor; cbn; intuition discriminate.
  - exists out. split; [exact S|]. rewrite O. reflexivity.
Defined.

(** C3, as stated, fails for two accounts that each hold 0.004: the summary
    reports 0.00, the sum of the two rounded balances, where the sum of the
    balances rounded after the summation is 0.01. *)
Lemma overall_balance_pennies :
  exists out,
    summary None Sample.pennies = Return out
    /\ overall_balance out = Sample.q 0 1
    /\ round2 (py_sum (map (fun acc => account_balance [] (serialize same acc))
                           (account Sample.pennies)))
       = Sample.q 1 100
    /\ overall_balance out
       <> round2 (py_sum (map (fun acc => account_balance [] (serialize same acc))
                              (account Sample.pennies))).
Proof.
  eexists. split; [reflexivity|].
  split; [reflexivity|].
  split; [reflexivity|].
  intro H. apply (f_equal Prim2SF) in H. vm_compute in H. discriminate H.
Qed.

Lemma filter_map_comm {A B} (f : A -> B) (p : B -> bool) (l : list A) :
  filter p (map f l) = map f (filter (fun x => p (f x)) l).
Proof.
  induction l as [|x l IH]; cbn [map filter]; [reflexivity|].
  rewrite IH. destruct (p (f x)); reflexivity.
Qed.

(** C6.  A summary for a month has one budget entry for each stored budget of
    that month: [spent] is the sum of the amounts of the expense transactions
    of the month in the budget's category, [remaining] is the budget amount
    minus that sum, whatever its sign, and both are rounded to 2 decimals.  A
    summary without a month has no budget entry. *)
Theorem budget_status_of_month (tok : string) (start next_month : date) (st : store) :
  month_range tok = Some (start, next_month) ->
  forallb well_formed (transaction st) = true ->
  (exists out,
     summary (Some tok) st = Return out
     /\ budgets out
        = map (fun b : stored BudgetIn =>
                 let spent :=
                   sum_amounts
                     (fun t => String.eqb (tf_category_id (fields t))
                                          (bi_category_id (doc_fields b))
                               && flow_eqb (tf_type (fields t)) expense)
                     (map (serialize transaction_fields)
                          (filter (dated_within start next_month) (transaction st))) in
                 {| bs_budget_id := oid_str (doc_id b);
                    bs_category_id := bi_category_id (doc_fields b);
                    bs_month := tok;
                    bs_amount := bi_amount (doc_fields b);
                    bs_spent := round2 spent;
                    bs_remaining := round2 (bi_amount (doc_fields b) - spent)%float |})
              (filter (fun b => String.eqb (bi_month (doc_fields b)) tok) (budget st)))
  /\ (exists out, summary None st = Return out /\ budgets out = []).
Proof.
  intros E W. split.
  - assert (month_filter (Some tok) (map (serialize transaction_fields) (transaction st))
            = Return (map (serialize transaction_fields)
                          (filter (dated_within start next_month) (transaction st)))) as F.
    { unfold month_filter. rewrite (month_range_truthy _ _ E), E.
      rewrite filter_raising_in_month by assumption. reflexivity. }
    destruct (summary_after_filter _ _ _ F) as (out & S & _ & _ & _ & B & _).
    exists out. split; [exact S|]. rewrite B, (month_range_truthy _ _ E).
    rewrite filter_map_comm, map_map. reflexivity.
  - destruct (summary_after_filter None st _ eq_refl) as (out & S & _ & _ & _ & B & _).
    exists out. split; [exact S|exact B].
Qed.

Lemma budget_status_of_month_witness :
  exists out entry,
    summary (Some "2024-03") Sample.ledger = Return out
    /\ budgets out = [entry]
    /\ bs_spent entry = Sample.q 37 1
    /\ bs_remaining entry = Sample.q (-17) 1.
Proof.
  destruct (budget_status_of_month "2024-03" (Date 2024 3 1) (Date 2024 4 1) Sample.ledger)
    as [(out & S & B) _]; try reflexivity.
  exists out. eexists. split; [exact S|]. split; [exact B|].
  split; reflexivity.
Defined.

(** ** Write checks *)

(** C7 (amended).  For every create-transaction request whose [account_id] is
    an identifier that [ObjectId] accepts: when the account is not stored the
    request fails with the 400 error "Account not found", whatever the
    [category_id] is; when the account is stored and the [category_id] is an
    identifier of no stored category, with the 400 error "Category not
    found"; in both cases nothing is inserted.  When both are identifiers of
    stored records, one record is appended to the transactions and only the
    new identifier is returned. *)
Theorem create_transaction_checks
  (e : env) (payload : TransactionIn) (st : store) (a : bytes) :
  ObjectId (ti_account_id payload) = Some a ->
  (find_one a (account st) = None ->
   create_transaction e payload st = (HTTPException 400 "Account not found", st))
  /\ (forall c, ObjectId (ti_category_id payload) = Some c ->
      find_one a (account st) <> None -> find_one c (category st) = None ->
      create_transaction e payload st = (HTTPException 400 "Category not found", st))
  /\ (forall c, ObjectId (ti_category_id payload) = Some c ->
      find_one a (account st) <> None -> find_one c (category st) <> None ->
      create_transaction e payload st
      = (Return {| new_id := oid_str (fresh_oid e) |},
         Store (account st) (category st)
               (transaction st ++ [Stored (fresh_oid e) (now e) payload])
               (budget st))).
Proof.
  intros Ha. unfold create_transaction, create_document. rewrite Ha.
  destruct (find_one a (account st)) as [x|].
  - split; [discriminate|]. split; intros c Hc _ F; rewrite Hc.
    + now rewrite F.
    + destruct (find_one c (category st)); [reflexivity | contradiction].
  - split; [reflexivity|]. split; intros c _ F; contradiction.
Qed.

Lemma create_transaction_checks_witness :
  create_transaction Sample.request_env (Sample.new_spend Sample.id_A Sample.id_C) Sample.ledger
  = (Return {| new_id := "4e4e4e4e4e4e4e4e4e4e4e4e" |},
     Store (account Sample.ledger) (category Sample.ledger)
           (transaction Sample.ledger
            ++ [Stored "NNNNNNNNNNNN" Sample.after_noon
                       (Sample.new_spend Sample.id_A Sample.id_C)])
           (budget Sample.ledger))
  /\ create_transaction Sample.request_env (Sample.new_spend Sample.id_S "groceries")
       Sample.ledger
     = (HTTPException 400 "Account not found", Sample.ledger).
Proof.
  split.
  - destruct (create_transaction_checks Sample.request_env
                (Sample.new_spend Sample.id_A Sample.id_C) Sample.ledger
                Sample.oid_A eq_refl) as (_ & _ & H).
    apply (H Sample.oid_C); [reflexivity | discriminate | discriminate].
  - destruct (create_transaction_checks Sample.request_env
                (Sample.new_spend Sample.id_S "groceries") Sample.ledger
                Sample.oid_S eq_refl) as (H & _).
    apply H. reflexivity.
Defined.

(** C7, as stated, fails for an [account_id] that is no identifier at all: it
    resolves to no record, and the request ends in an unhandled [InvalidId],
    not in the error "Account not found". *)
Lemma create_transaction_malformed_account_id :
  resolves "abc" (account Sample.ledger) = false
  /\ create_transaction Sample.request_env (Sample.new_spend "abc" Sample.id_C) Sample.ledger
     = (Unhandled InvalidId, Sample.ledger).
Proof. split; reflexivity. Qed.

(** C8 (amended).  For every create-budget request whose [category_id] is an
    identifier that [ObjectId] accepts: when the category is not stored the
    request fails with the 400 error "Category not found"; when it is stored
    and its type is not expense, with the 400 error "Budget only allowed for
    expense categories"; in both cases nothing is inserted.  Otherwise one
    record is appended to the budgets and only the new identifier is
    returned. *)
Theorem create_budget_checks (e : env) (payload : BudgetIn) (st : store) (c : bytes) :
  ObjectId (bi_category_id payload) = Some c ->
  (find_one c (category st) = None ->
   create_budget e payload st = (HTTPException 400 "Category not found", st))
  /\ (forall cat, find_one c (category st) = Some cat ->
      ci_type (doc_fields cat) <> expense ->
      create_budget e payload st
      = (HTTPException 400 "Budget only allowed for expense categories", st))
  /\ (forall cat, find_one c (category st) = Some cat ->
      ci_type (doc_fields cat) = expense ->
      create_budget e payload st
      = (Return {| new_id := oid_str (fresh_oid e) |},
         Store (account st) (category st) (transaction st)
               (budget st ++ [Stored (fresh_oid e) (now e) payload]))).
Proof.
  intros Hc. unfold create_budget, create_document. rewrite Hc.
  destruct (find_one c (category st)) as [x|].
  - split; [discriminate|]. split; intros cat E T; injection E as <-.
    + destruct (ci_type (doc_fields x)); [reflexivity | congruence].
    + rewrite T. reflexivity.
  - split; [reflexivity|]. split; intros; discriminate.
Qed.

Lemma create_budget_checks_witness :
  create_budget Sample.request_env (Sample.new_budget Sample.id_S) Sample.ledger
  = (HTTPException 400 "Budget only allowed for expense categories", Sample.ledger)
  /\ create_budget Sample.request_env (Sample.new_budget Sample.id_A) Sample.ledger
     = (HTTPException 400 "Category not found", Sample.ledger).
Proof.
  split.
  - destruct (create_budget_checks Sample.request_env (Sample.new_budget Sample.id_S)
                Sample.ledger Sample.oid_S eq_refl) as (_ & H & _).
    apply (H Sample.category_S); [reflexivity | discriminate].
  - destruct (create_budget_checks Sample.request_env (Sample.new_budget Sample.id_A)
                Sample.ledger Sample.oid_A eq_refl) as (H & _).
    apply H. reflexivity.
Defined.

(** C8, as stated, fails for a [category_id] that is no identifier at all: it
    resolves to no category, and the request ends in an unhandled [InvalidId],
    not in the error "Category not found". *)
Lemma create_budget_malformed_category_id :
  resolves "groceries" (category Sample.ledger) = false
  /\ create_budget Sample.request_env (Sample.new_budget "groceries") Sample.ledger
     = (Unhandled InvalidId, Sample.ledger).
Proof. split; reflexivity. Qed.

(** * Further properties of the handlers *)

(** ** [serialize] on dictionaries *)

Lemma dict_get_set_same {V} (k : string) (v : V) (d : dict V) :
  dict_get k (dict_set k v d) = Some v.
Proof.
  induction d as [|[k' v'] d IH]; cbn [dict_set dict_get].
  - now rewrite String.eqb_refl.
  - destruct (String.eqb k' k) eqn:E; cbn [dict_get]; rewrite E; [reflexivity | exact IH].
Qed.

Lemma dict_get_set_other {V} (k k' : string) (v : V) (d : dict V) :
  k <> k' -> dict_get k' (dict_set k v d) = dict_get k' d.
Proof.
  intro N. induction d as [|[k0 v0] d IH]; cbn [dict_set dict_get].
  - destruct (String.eqb_spec k k'); [contradiction | reflexivity].
  - destruct (String.eqb_spec k0 k) as [->|N0]; cbn [dict_get].
    + destruct (String.eqb_spec k k'); [contradiction | reflexivity].
    + destruct (String.eqb k0 k'); [reflexivity | exact IH].
Qed.

Lemma dict_get_del_same {V} (k : string) (d : dict V) : dict_get k (dict_del k d) = None.
Proof.
  unfold dict_del. induction d as [|[k' v'] d IH]; cbn [filter dict_get fst]; [reflexivity|].
  destruct (String.eqb k' k) eqn:E; cbn [negb dict_get]; [exact IH|]. now rewrite E.
Qed.

Lemma dict_get_del_other {V} (k k' : string) (d : dict V) :
  k <> k' -> dict_get k' (dict_del k d) = dict_get k' d.
Proof.
  intro N. unfold dict_del.
  induction d as [|[k0 v0] d IH]; cbn [filter dict_get fst]; [reflexivity|].
  destruct (String.eqb_spec k0 k) as [->|N0]; cbn [negb dict_get].
  - destruct (String.eqb_spec k k'); [contradiction | exact IH].
  - destruct (String.eqb k0 k'); [reflexivity | exact IH].
Qed.

Lemma dict_get_transport (k : string) (d : dict value) :
  dict_get k (map (fun kv => (fst kv, transport (snd kv))) d)
  = option_map transport (dict_get k d).
Proof.
  induction d as [|[k' v'] d IH]; cbn [map dict_get fst snd option_map]; [reflexivity|].
  destruct (String.eqb k' k); [reflexivity | exact IH].
Qed.

Lemma transport_twice (v : value) : transport (transport v) = transport v.
Proof. destruct v; reflexivity. Qed.

Lemma transport_all_twice (d : dict value) :
  map (fun kv => (fst kv, transport (snd kv)))
      (map (fun kv => (fst kv, transport (snd kv))) d)
  = map (fun kv => (fst kv, transport (snd kv))) d.
Proof.
  rewrite map_map. apply map_ext. intros [k v]. cbn [fst snd]. now rewrite transport_twice.
Qed.

(** A dictionary with no [_id] to rename is only mapped through [transport]. *)
Lemma serialize_doc_no_id (float_str : float -> string) (d : dict value) :
  dict_get "_id" d = None \/ dict_get "_id" d = Some VNone ->
  serialize_doc float_str d = map (fun kv => (fst kv, transport (snd kv))) d.
Proof.
  intro H. destruct d as [|kv d]; [reflexivity|].
  unfold serialize_doc. destruct H as [-> | ->]; reflexivity.
Qed.

(** X1.  [serialize] is idempotent: a record that was serialized is left as it
    is by a second pass. *)
Theorem serialize_doc_idempotent (float_str : float -> string) (doc : dict value) :
  serialize_doc float_str (serialize_doc float_str doc) = serialize_doc float_str doc.
Proof.
  destruct doc as [|kv d]; [reflexivity|].
  set (doc := kv :: d).
  assert (exists d1,
             serialize_doc float_str doc = map (fun kv => (fst kv, transport (snd kv))) d1
             /\ (dict_get "_id" d1 = None \/ dict_get "_id" d1 = Some VNone)) as (d1 & E & H).
  { unfold serialize_doc. subst doc. cbv zeta.
    destruct (dict_get "_id" (kv :: d)) as [v|] eqn:G.
    - destruct v;
        try (eexists; split; [reflexivity|]; left; apply dict_get_del_same).
      exists (kv :: d). split; [reflexivity|]. now right.
    - exists (kv :: d). split; [reflexivity|]. now left. }
  rewrite E. rewrite serialize_doc_no_id.
  - apply transport_all_twice.
  - rewrite dict_get_transport. destruct H as [-> | ->]; cbn; auto.
Qed.

(** X2.  What [serialize] does to the keys of a record that has an [_id]: the
    key [_id] is gone, [id] holds [str(_id)], and every other key keeps its
    value, a date or timestamp as ISO text.  No value of the result is a date
    or a timestamp. *)
Theorem serialize_doc_fields (float_str : float -> string) (doc : dict value) (v : value) :
  dict_get "_id" doc = Some v -> v <> VNone ->
  dict_get "_id" (serialize_doc float_str doc) = None
  /\ dict_get "id" (serialize_doc float_str doc) = Some (VStr (py_str float_str v))
  /\ (forall k, k <> "_id" -> k <> "id" ->
        dict_get k (serialize_doc float_str doc) = option_map transport (dict_get k doc))
  /\ (forall k w, In (k, w) (serialize_doc float_str doc) -> is_date_value w = false).
Proof.
  intros G N.
  assert (serialize_doc float_str doc
          = map (fun kv => (fst kv, transport (snd kv)))
                (dict_del "_id" (dict_set "id" (VStr (py_str float_str v)) doc))) as E.
  { destruct doc as [|kv d]; [discriminate G|].
    unfold serialize_doc. cbv zeta. rewrite G. destruct v; try reflexivity. contradiction. }
  rewrite E. repeat split.
  - rewrite dict_get_transport, dict_get_del_same. reflexivity.
  - rewrite dict_get_transport, dict_get_del_other by discriminate.
    rewrite dict_get_set_same. reflexivity.
  - intros k K1 K2. rewrite dict_get_transport.
    rewrite dict_get_del_other by congruence.
    rewrite dict_get_set_other by congruence. reflexivity.
  - intros k w I. apply in_map_iff in I. destruct I as ([k0 w0] & [= _ <-] & _).
    cbn [snd]. destruct w0; reflexivity.
Qed.

Lemma serialize_doc_fields_witness :
  dict_get "_id" (serialize_doc (fun _ => "30.0") (transaction_doc Sample.T1)) = None
  /\ dict_get "id" (serialize_doc (fun _ => "30.0") (transaction_doc Sample.T1))
     = Some (VStr "545454545454545454545431")
  /\ dict_get "date" (serialize_doc (fun _ => "30.0") (transaction_doc Sample.T1))
     = Some (VStr "2024-03-15").
Proof.
  destruct (serialize_doc_fields (fun _ => "30.0") (transaction_doc Sample.T1)
              (VObjectId (doc_id Sample.T1)) eq_refl ltac:(discriminate))
    as (A & B & C & _).
  split; [exact A|]. split; [exact B|].
  rewrite C by discriminate. reflexivity.
Defined.

(** X3.  The edge cases of [serialize]: a record without [_id], or whose
    [_id] is [None], gets no [id]: it keeps its keys in their order, and under
    every key its value, a date or a timestamp as ISO text.  The empty record
    is returned as it is. *)
Theorem serialize_doc_without_id (float_str : float -> string) (doc : dict value) :
  dict_get "_id" doc = None \/ dict_get "_id" doc = Some VNone ->
  map fst (serialize_doc float_str doc) = map fst doc
  /\ (forall k, dict_get k (serialize_doc float_str doc)
                = option_map transport (dict_get k doc))
  /\ serialize_doc float_str [] = [].
Proof.
  intro H. rewrite serialize_doc_no_id by assumption. split; [|split].
  - rewrite map_map. reflexivity.
  - intro k. apply dict_get_transport.
  - reflexivity.
Qed.

Lemma serialize_doc_without_id_witness :
  map fst (serialize_doc (fun _ => "0.0")
             [("_id", VNone); ("date", VDate (Date 2024 3 15))])
  = ["_id"; "date"]
  /\ dict_get "date" (serialize_doc (fun _ => "0.0")
                        [("_id", VNone); ("date", VDate (Date 2024 3 15))])
     = Some (VStr "2024-03-15").
Proof.
  destruct (serialize_doc_without_id (fun _ => "0.0")
              [("_id", VNone); ("date", VDate (Date 2024 3 15))]
              (or_intror eq_refl)) as (A & B & _).
  split; [exact A | exact (B "date")].
Defined.

(** X4.  On a stored transaction the record-level [serialize] and the
    dictionary-level one agree: the dictionary of the stored transaction is
    serialized to the dictionary of the serialized transaction, [id] last. *)
Theorem serialize_doc_transaction (float_str : float -> string) (t : stored TransactionIn) :
  serialize_doc float_str (transaction_doc t)
  = transaction_item_doc (serialize transaction_fields t).
Proof.
  destruct t as [oid at_ [d amount kind category_id account_id [note|]]]; reflexivity.
Qed.

(** ** The month of a date *)

Lemma month_range_result_inv (y m : Z) (start next_month : date) :
  month_range_result y m = Some (start, next_month) ->
  1 <= m <= 12
  /\ start = Date y m 1
  /\ next_month = (if m =? 12 then Date (y + 1) 1 1 else Date y (m + 1) 1).
Proof.
  unfold month_range_result.
  destruct (Z.leb_spec 1 y); destruct (Z.leb_spec 1 m); destruct (Z.leb_spec m 12);
    cbn [andb]; try discriminate.
  destruct (negb _); [|discriminate]. intros [= <- <-]. repeat split; lia.
Qed.

Lemma within_first_days (y m : Z) (d : date) :
  1 <= m <= 12 -> 1 <= Calendar.month d <= 12 -> 1 <= day d ->
  date_leb (Date y m 1) d
  && date_ltb d (if m =? 12 then Date (y + 1) 1 1 else Date y (m + 1) 1)
  = (year d =? y) && (Calendar.month d =? m).
Proof.
  intros Hm Hd H1. unfold date_leb, date_ltb, date_compare.
  destruct (Z.eqb_spec m 12) as [->|N]; cbn [year Calendar.month day];
    destruct (Z.compare_spec y (year d)); destruct (Z.compare_spec (year d) y);
    try lia;
    repeat match goal with
           | |- context [?a ?= ?b] => destruct (Z.compare_spec a b); try lia
           end;
    cbn [andb];
    repeat match goal with
           | |- context [?a =? ?b] => destruct (Z.eqb_spec a b); try lia
           end;
    reflexivity.
Qed.

(** X5.  A date belongs to the month of a token exactly when it has the year
    and the month of the token. *)
Theorem in_month_same_year_and_month (tok : string) (start next_month d : date) :
  month_pattern tok = true ->
  month_range tok = Some (start, next_month) ->
  valid_date d = true ->
  in_month start next_month (date_isoformat d)
  = Some ((year d =? token_year tok) && (Calendar.month d =? token_month tok)).
Proof.
  intros P E V. rewrite (month_range_spec _ P) in E.
  apply month_range_result_inv in E. destruct E as (Hm & -> & ->).
  pose proof (valid_date_bounds _ V) as (_ & Md & Dd).
  rewrite in_month_isoformat by assumption.
  rewrite within_first_days by lia. reflexivity.
Qed.

Lemma in_month_same_year_and_month_witness :
  in_month (Date 2024 2 1) (Date 2024 3 1) "2024-02-29" = Some true
  /\ in_month (Date 2024 2 1) (Date 2024 3 1) "2023-02-28" = Some false.
Proof.
  split.
  - exact (in_month_same_year_and_month "2024-02" (Date 2024 2 1) (Date 2024 3 1)
             (Date 2024 2 29) eq_refl eq_refl eq_refl).
  - exact (in_month_same_year_and_month "2024-02" (Date 2024 2 1) (Date 2024 3 1)
             (Date 2023 2 28) eq_refl eq_refl eq_refl).
Defined.

(** X6.  The date text that [serialize] writes for a stored transaction is
    read back by the month filter as the stored date. *)
Theorem serialized_date_parses_back (t : stored TransactionIn) :
  valid_date (ti_date (doc_fields t)) = true ->
  date_fromisoformat (tf_date (fields (serialize transaction_fields t)))
  = Some (ti_date (doc_fields t)).
Proof.
  intro V. cbn [serialize fields transaction_fields tf_date].
  now apply date_isoformat_roundtrip.
Qed.

Lemma serialized_date_parses_back_witness :
  date_fromisoformat (tf_date (fields (serialize transaction_fields Sample.T4)))
  = Some (Date 2024 4 2).
Proof. exact (serialized_date_parses_back Sample.T4 eq_refl). Defined.

(** ** The listing of a month inside the listing of everything *)

Section SortFilter.

Context {A : Type} (key : A -> string * string) (p : A -> bool).

Lemma insert_desc_head (x : A) (l : list A) :
  Forall (fun z => key_ltb (key x) (key z) = false) l -> insert_desc key x l = x :: l.
Proof.
  intro F. destruct l as [|y r]; [reflexivity|].
  cbn [insert_desc]. apply Forall_inv in F. now rewrite F.
Qed.

Lemma filter_insert_desc (x : A) (l : list A) :
  descending key l ->
  filter p (insert_desc key x l)
  = if p x then insert_desc key x (filter p l) else filter p l.
Proof.
  unfold descending. induction l as [|y r IH]; intro S.
  - cbn [insert_desc filter]. destruct (p x); reflexivity.
  - apply StronglySorted_inv in S. destruct S as [Sr Fy].
    cbn [insert_desc]. destruct (key_ltb (key x) (key y)) eqn:E.
    + cbn [filter]. rewrite (IH Sr).
      destruct (p y), (p x); cbn [insert_desc]; rewrite ?E; reflexivity.
    + change (filter p (x :: y :: r))
        with (if p x then x :: filter p (y :: r) else filter p (y :: r)).
      destruct (p x); [|reflexivity].
      symmetry. apply insert_desc_head.
      apply Forall_forall. intros z Iz. apply filter_In in Iz. destruct Iz as [Iz _].
      destruct Iz as [<-|Iz]; [exact E|].
      rewrite Forall_forall in Fy.
      eapply key_not_ltb_trans; [exact E | now apply Fy].
Qed.

(** Filtering commutes with the stable sort. *)
Lemma filter_sort_desc (l : list A) :
  filter p (sort_desc key l) = sort_desc key (filter p l).
Proof.
  induction l as [|x l IH]; [reflexivity|].
  cbn [sort_desc fold_right]. fold (sort_desc key l).
  rewrite filter_insert_desc by apply sort_desc_descending.
  rewrite IH. cbn [filter]. destruct (p x); reflexivity.
Qed.

End SortFilter.

Lemma item_in_month_serialize (start next_month : date) (t : stored TransactionIn) :
  valid_date (ti_date (doc_fields t)) = true ->
  item_in_month start next_month (serialize transaction_fields t)
  = dated_within start next_month t.
Proof.
  intro V. unfold item_in_month.
  cbn [serialize fields transaction_fields tf_date].
  now rewrite in_month_isoformat.
Qed.

Lemma filter_item_in_month (start next_month : date) (txs : list (stored TransactionIn)) :
  forallb well_formed txs = true ->
  filter (item_in_month start next_month) (map (serialize transaction_fields) txs)
  = map (serialize transaction_fields) (filter (dated_within start next_month) txs).
Proof.
  intro W. rewrite filter_map_comm. f_equal. apply filter_ext_in.
  intros t I. rewrite forallb_forall in W. specialize (W t I).
  unfold well_formed in W. apply andb_prop in W. now apply item_in_month_serialize.
Qed.

(** X7.  The listing of a month is the listing of all transactions with the
    transactions of other months left out: the month filter changes neither
    the order nor the items of those it keeps. *)
Theorem month_listing_within_full_listing
  (tok : string) (start next_month : date) (st : store) :
  month_range tok = Some (start, next_month) ->
  forallb well_formed (transaction st) = true ->
  exists everything,
    list_transactions None st = Return everything
    /\ list_transactions (Some tok) st
       = Return (filter (item_in_month start next_month) everything).
Proof.
  intros E W. eexists. split; [reflexivity|].
  unfold list_transactions, get_documents, month_filter.
  assert (truthy (Some tok) = Some tok) as ->
    by (destruct tok; [vm_compute in E; discriminate E | reflexivity]).
  rewrite E, filter_raising_in_month by assumption. cbn [of_option bind truthy].
  rewrite filter_sort_desc. now rewrite filter_item_in_month.
Qed.

Lemma month_listing_within_full_listing_witness :
  exists everything,
    list_transactions None Sample.ledger = Return everything
    /\ list_transactions (Some "2024-03") Sample.ledger
       = Return (filter (item_in_month (Date 2024 3 1) (Date 2024 4 1)) everything).
Proof.
  apply (month_listing_within_full_listing "2024-03" (Date 2024 3 1) (Date 2024 4 1)
           Sample.ledger); reflexivity.
Defined.

(** ** The listing of budgets *)

Lemma list_budgets_of_month (m : string) (st : store) :
  m <> "" ->
  list_budgets (Some m) st
  = map (serialize same)
        (filter (fun b => String.eqb (bi_month (doc_fields b)) m) (budget st)).
Proof.
  intro N. unfold list_budgets, get_documents.
  assert (truthy (Some m) = Some m) as -> by (destruct m; [contradiction | reflexivity]).
  now rewrite filter_map_comm.
Qed.

(** X8.  The listing of budgets compares the month as text and never parses
    it: for every token that is not empty, also one that [month_range]
    refuses, it returns the stored budgets whose month is that text, in store
    order, each as [serialize] writes it.  When the summary of the month
    returns, its budget entries are the listed budgets, one for one and in
    the same order. *)
Theorem list_budgets_by_text (m : string) (st : store) :
  m <> "" ->
  list_budgets (Some m) st
  = map (serialize same)
        (filter (fun b => String.eqb (bi_month (doc_fields b)) m) (budget st))
  /\ (forall out, summary (Some m) st = Return out ->
        map bs_budget_id (budgets out) = map id (list_budgets (Some m) st)
        /\ map bs_amount (budgets out)
           = map (fun b => bi_amount (fields b)) (list_budgets (Some m) st)).
Proof.
  intro N. rewrite list_budgets_of_month by assumption. split; [reflexivity|].
  intros out S.
  destruct (month_filter (Some m) (map (serialize transaction_fields) (transaction st)))
    as [txs| |] eqn:F.
  - destruct (summary_after_filter _ _ _ F) as (out' & S' & _ & _ & _ & B & _).
    rewrite S in S'. injection S' as <-. rewrite B.
    assert (truthy (Some m) = Some m) as -> by (destruct m; [contradiction | reflexivity]).
    rewrite filter_map_comm, !map_map. split; reflexivity.
  - unfold summary, get_documents in S. rewrite F in S. discriminate S.
  - unfold summary, get_documents in S. rewrite F in S. discriminate S.
Qed.

Lemma list_budgets_by_text_witness :
  month_range "2024-13" = None
  /\ list_budgets (Some "2024-13") Sample.ledger = []
  /\ list_budgets (Some "2024-03") Sample.ledger = [serialize same Sample.budget_B].
Proof.
  split; [reflexivity|]. split.
  - rewrite (proj1 (list_budgets_by_text "2024-13" Sample.ledger ltac:(discriminate))).
    reflexivity.
  - rewrite (proj1 (list_budgets_by_text "2024-03" Sample.ledger ltac:(discriminate))).
    reflexivity.
Defined.

(** ** What the write handlers do to the store *)

Lemma extends_refl (st : store) : extends st st.
Proof. repeat split; exists []; now rewrite app_nil_r. Qed.

Lemma length_snoc {A} (l : list A) (x : A) : List.length (l ++ [x]) = S (List.length l).
Proof. rewrite length_app. cbn. lia. Qed.

Lemma extends_transaction (st : store) (l : list (stored TransactionIn)) :
  extends st (Store (account st) (category st) (transaction st ++ l) (budget st)).
Proof.
  repeat split; cbn [account category transaction budget];
    try (exists []; now rewrite app_nil_r). now exists l.
Qed.

Lemma extends_budget (st : store) (l : list (stored BudgetIn)) :
  extends st (Store (account st) (category st) (transaction st) (budget st ++ l)).
Proof.
  repeat split; cbn [account category transaction budget];
    try (exists []; now rewrite app_nil_r). now exists l.
Qed.

Lemma extends_account (st : store) (l : list (stored AccountIn)) :
  extends st (Store (account st ++ l) (category st) (transaction st) (budget st)).
Proof.
  repeat split; cbn [account category transaction budget];
    try (exists []; now rewrite app_nil_r). now exists l.
Qed.

Lemma extends_category (st : store) (l : list (stored CategoryIn)) :
  extends st (Store (account st) (category st ++ l) (transaction st) (budget st)).
Proof.
  repeat split; cbn [account category transaction budget];
    try (exists []; now rewrite app_nil_r). now exists l.
Qed.

(** The two ways [create_transaction] ends. *)
Lemma create_transaction_ends (e : env) (p : TransactionIn) (st : store) :
  create_transaction e p st
  = (Return {| new_id := oid_str (fresh_oid e) |},
     Store (account st) (category st)
           (transaction st ++ [Stored (fresh_oid e) (now e) p]) (budget st))
  \/ (snd (create_transaction e p st) = st
      /\ forall i, fst (create_transaction e p st) <> Return i).
Proof.
  unfold create_transaction, create_document.
  destruct (ObjectId (ti_account_id p)) as [a|]; [|right; split; [reflexivity | discriminate]].
  destruct (find_one a (account st)); [|right; split; [reflexivity | discriminate]].
  destruct (ObjectId (ti_category_id p)) as [c|]; [|right; split; [reflexivity | discriminate]].
  destruct (find_one c (category st)); [|right; split; [reflexivity | discriminate]].
  now left.
Qed.

Lemma create_budget_ends (e : env) (p : BudgetIn) (st : store) :
  create_budget e p st
  = (Return {| new_id := oid_str (fresh_oid e) |},
     Store (account st) (category st) (transaction st)
           (budget st ++ [Stored (fresh_oid e) (now e) p]))
  \/ (snd (create_budget e p st) = st
      /\ forall i, fst (create_budget e p st) <> Return i).
Proof.
  unfold create_budget, create_document.
  destruct (ObjectId (bi_category_id p)) as [c|]; [|right; split; [reflexivity | discriminate]].
  destruct (find_one c (category st)) as [cat|]; [|right; split; [reflexivity | discriminate]].
  destruct (negb _); [right; split; [reflexivity | discriminate] | now left].
Qed.

(** X9.  A write never touches a stored record: after each of the four create
    handlers every collection starts with all it held before.  A create that
    does not return leaves the store as it was, whatever the request; one that
    returns has added exactly one record. *)
Theorem writes_only_append (e : env) (st : store) :
  (forall p,
     extends st (snd (create_transaction e p st))
     /\ ((forall i, fst (create_transaction e p st) <> Return i) ->
         snd (create_transaction e p st) = st)
     /\ (forall i, fst (create_transaction e p st) = Return i ->
         records (snd (create_transaction e p st)) = S (records st)))
  /\ (forall p,
     extends st (snd (create_budget e p st))
     /\ ((forall i, fst (create_budget e p st) <> Return i) ->
         snd (create_budget e p st) = st)
     /\ (forall i, fst (create_budget e p st) = Return i ->
         records (snd (create_budget e p st)) = S (records st)))
  /\ (forall p,
     extends st (snd (create_account e p st))
     /\ (exists i, fst (create_account e p st) = Return i)
     /\ records (snd (create_account e p st)) = S (records st))
  /\ (forall p,
     extends st (snd (create_category e p st))
     /\ (exists i, fst (create_category e p st) = Return i)
     /\ records (snd (create_category e p st)) = S (records st)).
Proof.
  split; [|split; [|split]]; intro p.
  - destruct (create_transaction_ends e p st) as [E | [E N]].
    + rewrite E. cbn [fst snd]. split; [apply extends_transaction|].
      split; [intro H; exfalso; now apply (H {| new_id := oid_str (fresh_oid e) |})|].
      intros _ _. unfold records. cbn [account category transaction budget].
      rewrite length_snoc. lia.
    + rewrite E. split; [apply extends_refl|]. split; [reflexivity|].
      intros i H. exfalso. now apply (N i).
  - destruct (create_budget_ends e p st) as [E | [E N]].
    + rewrite E. cbn [fst snd]. split; [apply extends_budget|].
      split; [intro H; exfalso; now apply (H {| new_id := oid_str (fresh_oid e) |})|].
      intros _ _. unfold records. cbn [account category transaction budget].
      rewrite length_snoc. lia.
    + rewrite E. split; [apply extends_refl|]. split; [reflexivity|].
      intros i H. exfalso. now apply (N i).
  - unfold create_account, create_document. cbn [fst snd].
    split; [apply extends_account|]. split; [eauto|].
    unfold records. cbn [account category transaction budget]. rewrite length_snoc. lia.
  - unfold create_category, create_document. cbn [fst snd].
    split; [apply extends_category|]. split; [eauto|].
    unfold records. cbn [account category transaction budget]. rewrite length_snoc. lia.
Qed.

Lemma writes_only_append_witness :
  snd (create_transaction Sample.request_env (Sample.new_spend Sample.id_C Sample.id_C)
         Sample.ledger)
  = Sample.ledger
  /\ records (snd (create_budget Sample.request_env (Sample.new_budget Sample.id_C)
                     Sample.ledger))
     = 9%nat.
Proof.
  destruct (writes_only_append Sample.request_env Sample.ledger) as (T & B & _).
  split.
  - apply (T (Sample.new_spend Sample.id_C Sample.id_C)). intro i. discriminate.
  - apply (proj2 (proj2 (B (Sample.new_budget Sample.id_C)))
             {| new_id := "4e4e4e4e4e4e4e4e4e4e4e4e" |}).
    reflexivity.
Defined.

(** ** Identifiers between the listings and the writes *)

Lemma oid_str_length (b : bytes) : String.length (oid_str b) = (2 * String.length b)%nat.
Proof.
  induction b as [|c b IH]; [reflexivity|].
  cbn [oid_str String.length]. rewrite IH. lia.
Qed.

(** [ObjectId] reads back the text of an identifier of 12 bytes. *)
Lemma ObjectId_oid_str (b : bytes) :
  String.length b = 12%nat -> ObjectId (oid_str b) = Some b.
Proof.
  intro L. unfold ObjectId. rewrite oid_str_length, L. cbn [Nat.mul Nat.add Nat.eqb].
  apply fromhex_oid_str.
Qed.

Lemma find_one_some {P} (x : stored P) (l : list (stored P)) :
  In x l -> find_one (doc_id x) l <> None.
Proof.
  intros I N. unfold find_one in N.
  pose proof (find_none _ _ N x I) as E. cbn beta in E.
  now rewrite String.eqb_refl in E.
Qed.

Lemma find_one_unique {P} (x : stored P) (l : list (stored P)) :
  NoDup (map doc_id l) -> In x l -> find_one (doc_id x) l = Some x.
Proof.
  unfold find_one. induction l as [|y l IH]; cbn [map In find]; intros N I; [contradiction|].
  apply NoDup_cons_iff in N. destruct N as [Ny N].
  destruct (String.eqb_spec (doc_id y) (doc_id x)) as [E|D].
  - destruct I as [->|I]; [reflexivity|].
    exfalso. apply Ny. rewrite E. now apply in_map.
  - destruct I as [->|I]; [contradiction|]. auto.
Qed.

(** X10.  The identifiers that the listings of accounts and categories show
    are accepted by [create_transaction]: a request that names a listed
    account and a listed category by their [id] text is stored, as the last
    transaction, and the new identifier is returned. *)
Theorem create_transaction_accepts_listed_ids
  (e : env) (p : TransactionIn) (st : store)
  (acc : item AccountIn) (cat : item CategoryIn) :
  Forall (fun a => String.length (doc_id a) = 12%nat) (account st) ->
  Forall (fun c => String.length (doc_id c) = 12%nat) (category st) ->
  In acc (list_accounts st) ->
  In cat (list_categories st) ->
  ti_account_id p = id acc ->
  ti_category_id p = id cat ->
  create_transaction e p st
  = (Return {| new_id := oid_str (fresh_oid e) |},
     Store (account st) (category st)
           (transaction st ++ [Stored (fresh_oid e) (now e) p])
           (budget st)).
Proof.
  intros La Lc Ia Ic Ea Ec.
  unfold list_accounts, get_documents in Ia. apply in_map_iff in Ia.
  destruct Ia as (a & <- & Ia).
  unfold list_categories, get_documents in Ic. apply in_map_iff in Ic.
  destruct Ic as (c & <- & Ic).
  cbn [serialize id] in Ea, Ec.
  rewrite Forall_forall in La, Lc.
  unfold create_transaction, create_document.
  rewrite Ea, (ObjectId_oid_str _ (La a Ia)).
  destruct (find_one (doc_id a) (account st)) eqn:Fa;
    [|exfalso; now apply (find_one_some a (account st))].
  rewrite Ec, (ObjectId_oid_str _ (Lc c Ic)).
  destruct (find_one (doc_id c) (category st)) eqn:Fc;
    [|exfalso; now apply (find_one_some c (category st))].
  reflexivity.
Qed.

Lemma create_transaction_accepts_listed_ids_witness :
  fst (create_transaction Sample.request_env (Sample.new_spend Sample.id_A Sample.id_S)
         Sample.ledger)
  = Return {| new_id := "4e4e4e4e4e4e4e4e4e4e4e4e" |}.
Proof.
  rewrite (create_transaction_accepts_listed_ids Sample.request_env
             (Sample.new_spend Sample.id_A Sample.id_S) Sample.ledger
             (serialize same Sample.account_A) (serialize same Sample.category_S)).
  - reflexivity.
  - repeat constructor.
  - repeat constructor.
  - left. reflexivity.
  - right. left. reflexivity.
  - reflexivity.
  - reflexivity.
Defined.

(** X11.  For a listed category, [create_budget] decides by the type alone: a
    request that names the category by its [id] text is stored when the
    category is an expense category and refused with the 400 error "Budget
    only allowed for expense categories" when it is an income category. *)
Theorem create_budget_for_listed_category
  (e : env) (p : BudgetIn) (st : store) (c : stored CategoryIn) :
  NoDup (map doc_id (category st)) ->
  In c (category st) ->
  String.length (doc_id c) = 12%nat ->
  bi_category_id p = id (serialize same c) ->
  create_budget e p st
  = match ci_type (doc_fields c) with
    | expense =>
        (Return {| new_id := oid_str (fresh_oid e) |},
         Store (account st) (category st) (transaction st)
               (budget st ++ [Stored (fresh_oid e) (now e) p]))
    | income => (HTTPException 400 "Budget only allowed for expense categories", st)
    end.
Proof.
  intros N I L E. cbn [serialize id] in E.
  unfold create_budget, create_document.
  rewrite E, (ObjectId_oid_str _ L), (find_one_unique c _ N I).
  destruct (ci_type (doc_fields c)); reflexivity.
Qed.

Lemma create_budget_for_listed_category_witness :
  create_budget Sample.request_env (Sample.new_budget Sample.id_S) Sample.ledger
  = (HTTPException 400 "Budget only allowed for expense categories", Sample.ledger)
  /\ fst (create_budget Sample.request_env (Sample.new_budget Sample.id_C) Sample.ledger)
     = Return {| new_id := "4e4e4e4e4e4e4e4e4e4e4e4e" |}.
Proof.
  assert (NoDup (map doc_id (category Sample.ledger))) as N
    by (repeat constructor; cbn; intuition discriminate).
  split.
  - rewrite (create_budget_for_listed_category Sample.request_env
               (Sample.new_budget Sample.id_S) Sample.ledger Sample.category_S N);
      [reflexivity | right; left; reflexivity | reflexivity | reflexivity].
  - rewrite (create_budget_for_listed_category Sample.request_env
               (Sample.new_budget Sample.id_C) Sample.ledger Sample.category_C N);
      [reflexivity | left; reflexivity | reflexivity | reflexivity].
Defined.

(** X12.  [create_transaction] looks at the account first: when the
    [account_id] is no identifier the request ends in [InvalidId], and when it
    is the identifier of no stored account it ends in the 400 error "Account
    not found", whatever the [category_id] is, also one that is no identifier
    or names no category. *)
Theorem create_transaction_account_first (e : env) (p : TransactionIn) (st : store) :
  (ObjectId (ti_account_id p) = None ->
   create_transaction e p st = (Unhandled InvalidId, st))
  /\ (forall a, ObjectId (ti_account_id p) = Some a -> find_one a (account st) = None ->
      create_transaction e p st = (HTTPException 400 "Account not found", st))
  /\ (forall a, ObjectId (ti_account_id p) = Some a -> find_one a (account st) <> None ->
      ObjectId (ti_category_id p) = None ->
      create_transaction e p st = (Unhandled InvalidId, st)).
Proof.
  unfold create_transaction. repeat split.
  - intros ->. reflexivity.
  - intros a -> ->. reflexivity.
  - intros a -> F ->. destruct (find_one a (account st)); [reflexivity | contradiction].
Qed.

Lemma create_transaction_account_first_witness :
  create_transaction Sample.request_env (Sample.new_spend Sample.id_C "no category")
    Sample.ledger
  = (HTTPException 400 "Account not found", Sample.ledger).
Proof.
  destruct (create_transaction_account_first Sample.request_env
              (Sample.new_spend Sample.id_C "no category") Sample.ledger) as (_ & H & _).
  apply (H Sample.oid_C); reflexivity.
Defined.

(** ** A new transaction and the balances *)

(** What a summary that returned is made of. *)
Lemma summary_inv (month : option string) (st : store) (out : SummaryOut) :
  summary month st = Return out ->
  exists txs,
    month_filter month (map (serialize transaction_fields) (transaction st)) = Return txs
    /\ transactions out = firstn 50 txs
    /\ total_income out
       = round2 (sum_amounts (fun t => flow_eqb (tf_type (fields t)) income) txs)
    /\ total_expense out
       = round2 (sum_amounts (fun t => flow_eqb (tf_type (fields t)) expense) txs)
    /\ budgets out
       = match truthy month with
         | Some m =>
             map (budget_entry m txs)
                 (filter (fun b => String.eqb (bi_month (fields b)) m)
                         (map (serialize same) (budget st)))
         | None => []
         end
    /\ accounts out
       = fold_left (account_step (map (serialize transaction_fields) (transaction st)))
                   (map (serialize same) (account st)) []
    /\ overall_balance out = round2 (py_sum (map ab_balance (dict_values (accounts out)))).
Proof.
  intro S.
  destruct (month_filter month (map (serialize transaction_fields) (transaction st)))
    as [txs| |] eqn:F.
  - destruct (summary_after_filter _ _ _ F) as (out' & S' & R).
    rewrite S in S'. injection S' as <-. exists txs. split; [reflexivity | exact R].
  - unfold summary, get_documents in S. rewrite F in S. discriminate S.
  - unfold summary, get_documents in S. rewrite F in S. discriminate S.
Qed.

Lemma fold_left_snoc {A B} (f : A -> B -> A) (l : list B) (x : B) (a : A) :
  fold_left f (l ++ [x]) a = f (fold_left f l a) x.
Proof. now rewrite fold_left_app. Qed.

Lemma fold_left_ext_in {A B} (f g : A -> B -> A) (l : list B) :
  (forall a x, In x l -> f a x = g a x) ->
  forall a, fold_left f l a = fold_left g l a.
Proof.
  induction l as [|x l IH]; intros H a; [reflexivity|].
  cbn [fold_left]. rewrite H by now left. apply IH. intros; apply H; now right.
Qed.

(** The balance of an account once one more transaction is stored. *)
Lemma account_balance_snoc (txs : list (item TransactionFields))
  (t : item TransactionFields) (acc : item AccountIn) :
  account_balance (txs ++ [t]) acc = balance_step (id acc) (account_balance txs acc) t.
Proof. unfold account_balance. apply fold_left_snoc. Qed.

Lemma ObjectId_canonical (s : string) (a b : bytes) :
  ObjectId s = Some a -> s = oid_str b -> a = b.
Proof.
  unfold ObjectId. intros H ->. destruct (_ =? _)%nat; [|discriminate].
  rewrite fromhex_oid_str in H. congruence.
Qed.

(** X13.  [ObjectId] reads hex digits in either case, and the summary compares
    the [account_id] of a transaction with the [id] of an account as text.  So
    a request that spells the identifier of a stored account in another way
    than [str] does (upper-case digits) is accepted and stored as the last
    transaction, and the new transaction counts for no account: whatever the
    month, the summary after the write reports the balances that the summary
    before it reports. *)
Theorem create_transaction_other_spelling
  (e : env) (p : TransactionIn) (st : store) (a c : bytes) :
  ObjectId (ti_account_id p) = Some a ->
  find_one a (account st) <> None ->
  ObjectId (ti_category_id p) = Some c ->
  find_one c (category st) <> None ->
  ti_account_id p <> oid_str a ->
  create_transaction e p st
  = (Return {| new_id := oid_str (fresh_oid e) |},
     Store (account st) (category st)
           (transaction st ++ [Stored (fresh_oid e) (now e) p]) (budget st))
  /\ (forall month out out',
        summary month st = Return out ->
        summary month
          (Store (account st) (category st)
                 (transaction st ++ [Stored (fresh_oid e) (now e) p]) (budget st))
        = Return out' ->
        accounts out' = accounts out /\ overall_balance out' = overall_balance out)
  /\ (exists out out',
        summary None st = Return out
        /\ summary None
             (Store (account st) (category st)
                    (transaction st ++ [Stored (fresh_oid e) (now e) p]) (budget st))
           = Return out').
Proof.
  intros Ha Fa Hc Fc N. split; [|split].
  - unfold create_transaction, create_document. rewrite Ha.
    destruct (find_one a (account st)); [|contradiction]. rewrite Hc.
    destruct (find_one c (category st)); [|contradiction]. reflexivity.
  - intros month out out' S S'.
    apply summary_inv in S, S'.
    destruct S as (txs & _ & _ & _ & _ & _ & A & O).
    destruct S' as (txs' & _ & _ & _ & _ & _ & A' & O').
    cbn [account transaction] in A'.
    assert (accounts out' = accounts out) as E.
    { rewrite A, A'. apply fold_left_ext_in. intros d acc I.
      unfold account_step. do 2 f_equal.
      rewrite map_app. cbn [map]. rewrite account_balance_snoc.
      unfold balance_step. cbn [serialize fields transaction_fields tf_account_id doc_fields].
      destruct (String.eqb_spec (ti_account_id p) (id acc)) as [K|_]; [|reflexivity].
      exfalso. apply in_map_iff in I. destruct I as (s & <- & _).
      cbn [serialize id] in K. apply N.
      rewrite (ObjectId_canonical _ _ _ Ha K). exact K. }
    split; [exact E|]. now rewrite O, O', E.
  - destruct (summary_after_filter None st _ eq_refl) as (out & S & _).
    destruct (summary_after_filter None
                (Store (account st) (category st)
                       (transaction st ++ [Stored (fresh_oid e) (now e) p]) (budget st))
                _ eq_refl) as (out' & S' & _).
    eauto.
Qed.

Lemma create_transaction_other_spelling_witness :
  create_transaction Sample.request_env
    (Sample.new_spend "4A4a4A4a4A4a4A4a4A4a4A4a" Sample.id_C)
    (Store [Stored "JJJJJJJJJJJJ" Sample.noon
              {| ai_name := "J"; ai_type := cash;
                 ai_initial_balance := Sample.q 1 1; ai_color := None |}]
           [Sample.category_C] [] [])
  = (Return {| new_id := "4e4e4e4e4e4e4e4e4e4e4e4e" |},
     Store [Stored "JJJJJJJJJJJJ" Sample.noon
              {| ai_name := "J"; ai_type := cash;
                 ai_initial_balance := Sample.q 1 1; ai_color := None |}]
           [Sample.category_C]
           [Stored "NNNNNNNNNNNN" Sample.after_noon
              (Sample.new_spend "4A4a4A4a4A4a4A4a4A4a4A4a" Sample.id_C)]
           []).
Proof.
  apply (create_transaction_other_spelling Sample.request_env
           (Sample.new_spend "4A4a4A4a4A4a4A4a4A4a4A4a" Sample.id_C)
           (Store [Stored "JJJJJJJJJJJJ" Sample.noon
                     {| ai_name := "J"; ai_type := cash;
                        ai_initial_balance := Sample.q 1 1; ai_color := None |}]
                  [Sample.category_C] [] [])
           "JJJJJJJJJJJJ" Sample.oid_C);
    reflexivity || discriminate.
Defined.

(** X14.  A transaction that is stored moves the balance of the account it
    names by its amount, up for an income and down for an expense, and leaves
    the balance of every other account where it was (balances before
    rounding). *)
Theorem created_transaction_moves_one_balance
  (e : env) (p : TransactionIn) (st st' : store) (i : IdOut) (acc : stored AccountIn) :
  create_transaction e p st = (Return i, st') ->
  account_balance (map (serialize transaction_fields) (transaction st'))
                  (serialize same acc)
  = if String.eqb (ti_account_id p) (oid_str (doc_id acc))
    then match ti_type p with
         | income =>
             (account_balance (map (serialize transaction_fields) (transaction st))
                              (serialize same acc) + ti_amount p)%float
         | expense =>
             (account_balance (map (serialize transaction_fields) (transaction st))
                              (serialize same acc) - ti_amount p)%float
         end
    else account_balance (map (serialize transaction_fields) (transaction st))
                         (serialize same acc).
Proof.
  intro C. destruct (create_transaction_ends e p st) as [E | [_ N]].
  - rewrite E in C. injection C as _ <-. cbn [transaction].
    rewrite map_app. cbn [map]. rewrite account_balance_snoc.
    unfold balance_step.
    cbn [serialize fields transaction_fields tf_account_id tf_type tf_amount id doc_fields doc_id].
    destruct (String.eqb _ _); [|reflexivity]. destruct (ti_type p); reflexivity.
  - exfalso. apply (N i). now rewrite C.
Qed.

Lemma created_transaction_moves_one_balance_witness :
  account_balance
    (map (serialize transaction_fields)
         (transaction (snd (create_transaction Sample.request_env
                              (Sample.new_spend Sample.id_A Sample.id_C) Sample.ledger))))
    (serialize same Sample.account_A)
  = Sample.q 45 1.
Proof.
  rewrite (created_transaction_moves_one_balance Sample.request_env
             (Sample.new_spend Sample.id_A Sample.id_C) Sample.ledger
             (snd (create_transaction Sample.request_env
                     (Sample.new_spend Sample.id_A Sample.id_C) Sample.ledger))
             {| new_id := "4e4e4e4e4e4e4e4e4e4e4e4e" |} Sample.account_A eq_refl).
  reflexivity.
Defined.

(** ** A write, then a listing *)

(** X17.  What [create_account] and [create_category] store is what the
    listings show next: the listing after the write is the listing before it
    followed by one item, which has the identifier the write returned, the
    time of the write as ISO text and the fields of the request. *)
Theorem created_record_is_listed (e : env) (st : store) :
  (forall p, exists i st',
      create_account e p st = (Return i, st')
      /\ list_accounts st'
         = list_accounts st ++ [Item (new_id i) (datetime_isoformat (now e)) p])
  /\ (forall p, exists i st',
      create_category e p st = (Return i, st')
      /\ list_categories st'
         = list_categories st ++ [Item (new_id i) (datetime_isoformat (now e)) p]).
Proof.
  split; intro p; eexists _, _; (split; [reflexivity|]).
  - unfold list_accounts, get_documents. cbn [account new_id]. now rewrite map_app.
  - unfold list_categories, get_documents. cbn [category new_id]. now rewrite map_app.
Qed.

Lemma filter_keeps_all {A} (p : A -> bool) (l : list A) :
  (forall x, In x l -> p x = true) -> filter p l = l.
Proof.
  intro H. rewrite (filter_ext_in p (fun _ => true) l H). apply filter_all.
Qed.

(** X18.  A transaction that [create_transaction] stored is in the next
    listing of all transactions, under the identifier that was returned and
    with its date as ISO text; the listing holds the items it held before and
    this one.  When the new identifier is that of no stored transaction, the
    other items keep their order: the new listing without the new item is the
    old listing. *)
Theorem created_transaction_is_listed
  (e : env) (p : TransactionIn) (st st' : store) (i : IdOut) :
  create_transaction e p st = (Return i, st') ->
  exists items items',
    list_transactions None st = Return items
    /\ list_transactions None st' = Return items'
    /\ Permutation items'
         (Item (new_id i) (datetime_isoformat (now e)) (transaction_fields p) :: items)
    /\ (~ In (fresh_oid e) (map doc_id (transaction st)) ->
        filter (fun x => negb (String.eqb (id x) (new_id i))) items' = items).
Proof.
  intro C. destruct (create_transaction_ends e p st) as [E | [_ N]].
  2:{ exfalso. apply (N i). now rewrite C. }
  rewrite E in C. injection C as <- <-. cbn [new_id].
  eexists _, _. split; [reflexivity|]. split; [reflexivity|].
  unfold get_documents. cbn [transaction]. rewrite map_app. cbn [map serialize doc_id
    doc_created_at doc_fields]. split.
  - etransitivity; [apply sort_desc_perm|].
    etransitivity; [apply Permutation_sym, Permutation_cons_append|].
    apply perm_skip, Permutation_sym, sort_desc_perm.
  - intro F. rewrite filter_sort_desc, filter_app. cbn [filter id].
    rewrite String.eqb_refl. cbn [negb]. rewrite app_nil_r.
    rewrite filter_keeps_all; [reflexivity|].
    intros x I. apply in_map_iff in I. destruct I as (t & <- & I). cbn [serialize id].
    destruct (String.eqb_spec (oid_str (doc_id t)) (oid_str (fresh_oid e))) as [K|_];
      [|reflexivity].
    exfalso. apply F. apply oid_str_inj in K. rewrite <- K. now apply in_map.
Qed.

Lemma created_transaction_is_listed_witness :
  exists items',
    list_transactions None
      (snd (create_transaction Sample.request_env
              (Sample.new_spend Sample.id_A Sample.id_C) Sample.ledger))
    = Return items'
    /\ map id items'
       = ["545454545454545454545434"; "4e4e4e4e4e4e4e4e4e4e4e4e";
          "545454545454545454545433"; "545454545454545454545432";
          "545454545454545454545431"].
Proof.
  destruct (created_transaction_is_listed Sample.request_env
              (Sample.new_spend Sample.id_A Sample.id_C) Sample.ledger
              (snd (create_transaction Sample.request_env
                      (Sample.new_spend Sample.id_A Sample.id_C) Sample.ledger))
              {| new_id := "4e4e4e4e4e4e4e4e4e4e4e4e" |} eq_refl)
    as (items & items' & _ & L & _).
  exists items'. split; [exact L|].
  assert (Return items' = list_transactions None
            (snd (create_transaction Sample.request_env
                    (Sample.new_spend Sample.id_A Sample.id_C) Sample.ledger))) as K
    by (symmetry; exact L).
  vm_compute in K. injection K as ->. reflexivity.
Defined.

(** ** The transactions of a summary *)

Lemma filter_raising_incl {A} (p : A -> option bool) (l : list A) : forall r,
  filter_raising p l = Some r -> incl r l.
Proof.
  induction l as [|x l IH]; cbn [filter_raising]; intros r H.
  - injection H as <-. apply incl_refl.
  - destruct (p x) as [b|]; [|discriminate].
    destruct (filter_raising p l) as [r'|]; [|discriminate].
    injection H as <-. specialize (IH r' eq_refl).
    destruct b; [apply incl_cons; [now left | now apply incl_tl] | now apply incl_tl].
Qed.

(** What the month filter returns is part of what it was given. *)
Lemma month_filter_incl (month : option string) (items txs : list (item TransactionFields)) :
  month_filter month items = Return txs -> incl txs items.
Proof.
  unfold month_filter. destruct (truthy month) as [m|].
  - destruct (month_range m) as [[start next_month]|]; [|discriminate].
    destruct (filter_raising _ items) as [r|] eqn:F; [|discriminate].
    cbn [of_option]. intros [= <-]. eapply filter_raising_incl. exact F.
  - intros [= <-]. apply incl_refl.
Qed.

(** X19.  A summary lists at most 50 transactions, each of them a stored
    transaction as [serialize] writes it; without a month they are the first
    50 in store order, and all of them when the store holds at most 50. *)
Theorem summary_transactions_limit (month : option string) (st : store) (out : SummaryOut) :
  summary month st = Return out ->
  (List.length (transactions out) <= 50)%nat
  /\ incl (transactions out) (map (serialize transaction_fields) (transaction st))
  /\ (truthy month = None ->
      transactions out = firstn 50 (map (serialize transaction_fields) (transaction st))
      /\ ((List.length (transaction st) <= 50)%nat ->
          transactions out = map (serialize transaction_fields) (transaction st))).
Proof.
  intro S. apply summary_inv in S. destruct S as (txs & F & T & _).
  rewrite T. split; [apply firstn_le_length|]. split.
  - intros x I. apply (month_filter_incl _ _ _ F). rewrite <- (firstn_skipn 50 txs).
    apply in_or_app. now left.
  - intro N. unfold month_filter in F. rewrite N in F. injection F as <-.
    split; [reflexivity|]. intro L. apply firstn_all2. now rewrite length_map.
Qed.

Lemma summary_transactions_limit_witness :
  exists out,
    summary None Sample.ledger = Return out
    /\ (List.length (transactions out) <= 50)%nat
    /\ transactions out = map (serialize transaction_fields) (transaction Sample.ledger).
Proof.
  eexists. split; [reflexivity|].
  destruct (summary_transactions_limit None Sample.ledger _ eq_refl) as (L & _ & H).
  split; [exact L|]. apply (H eq_refl). cbn. lia.
Defined.
